(** * OptiLens chat assistant: shallow embedding of the decision pipeline

    JS strings are modelled as lists of Unicode code points ([list Z]);
    JS numbers are IEEE-754 binary64 values, modelled by Rocq's primitive
    floats, so that additions and comparisons round exactly as in the
    source. *)

From Stdlib Require Import ZArith Bool List Ascii String.
From Stdlib Require Import Floats.
From stdpp Require Import base gmap strings.
Import ListNotations.
Set Warnings "-inexact-float".

(* ------------------------------------------------------------------ *)
(** ** Code points and the JS character classes used by the regexes *)
Module Text.
Local Open Scope Z_scope.

Definition cstring := list Z.

(** An ASCII literal as a list of code points. *)
Definition cps (s : string) : cstring :=
  map (fun a => Z.of_nat (nat_of_ascii a)) (list_ascii_of_string s).

(** [\s] and the characters removed by [String.prototype.trim]
    (WhiteSpace and LineTerminator of ECMA-262). *)
Definition is_js_space (c : Z) : bool :=
  (9 <=? c) && (c <=? 13) || (c =? 32) || (c =? 160) || (c =? 5760)
  || (8192 <=? c) && (c <=? 8202) || (c =? 8232) || (c =? 8233)
  || (c =? 8239) || (c =? 8287) || (c =? 12288) || (c =? 65279).

(** [\w] (non-unicode mode): [A-Za-z0-9_]. *)
Definition is_word_char (c : Z) : bool :=
  (48 <=? c) && (c <=? 57) || (65 <=? c) && (c <=? 90)
  || (97 <=? c) && (c <=? 122) || (c =? 95).

Definition is_digit (c : Z) : bool := (48 <=? c) && (c <=? 57).

Definition is_word_opt (c : option Z) : bool :=
  match c with Some c => is_word_char c | None => false end.

(** [\b] between the character before ([prev]) and the one after. *)
Definition word_boundary (prev next : option Z) : bool :=
  xorb (is_word_opt prev) (is_word_opt next).

(** Canonicalisation of the [i] flag in non-unicode mode: only ASCII
    letters fold (a code unit >= 128 never folds onto ASCII). *)
Definition fold_ci (c : Z) : Z :=
  if (97 <=? c) && (c <=? 122) then c - 32 else c.

(** [text.trim()] *)
Fixpoint drop_spaces (s : cstring) : cstring :=
  match s with
  | c :: r => if is_js_space c then drop_spaces r else s
  | [] => []
  end.

Definition trim (s : cstring) : cstring :=
  rev (drop_spaces (rev (drop_spaces s))).

(** [.replace(/\s+/g, " ")]: every maximal run of [\s] becomes one space. *)
Fixpoint collapse_spaces_aux (in_run : bool) (s : cstring) : cstring :=
  match s with
  | [] => []
  | c :: r =>
      if is_js_space c then
        (if in_run then collapse_spaces_aux true r
         else 32 :: collapse_spaces_aux true r)
      else c :: collapse_spaces_aux false r
  end.

Definition collapse_spaces (s : cstring) : cstring := collapse_spaces_aux false s.

(** [.replace(/,/g, ".")] *)
Definition commas_to_dots (s : cstring) : cstring :=
  map (fun c => if c =? 44 then 46 else c) s.

(** A literal matched case-insensitively at the head of [s]: the rest. *)
Fixpoint match_ci (w s : cstring) : option cstring :=
  match w, s with
  | [], _ => Some s
  | a :: w', c :: s' => if fold_ci a =? fold_ci c then match_ci w' s' else None
  | _ :: _, [] => None
  end.

(** [\s*] (greedy; nothing after it in these patterns needs a shorter run). *)
Fixpoint skip_ws (s : cstring) : cstring :=
  match s with
  | c :: r => if is_js_space c then skip_ws r else s
  | [] => []
  end.

(** [\d+] (greedy): the digits and the rest. *)
Fixpoint take_digits (s : cstring) : cstring * cstring :=
  match s with
  | c :: r => if is_digit c then let '(d, r') := take_digits r in (c :: d, r')
              else ([], s)
  | [] => ([], [])
  end.

(** [RegExp.prototype.exec] scanning: the first start position (left to
    right) at which [try_at] matches; [try_at] sees the previous character. *)
Fixpoint search {A} (try_at : option Z -> cstring -> option A)
    (prev : option Z) (s : cstring) : option A :=
  match try_at prev s with
  | Some a => Some a
  | None => match s with
            | [] => None
            | c :: r => search try_at (Some c) r
            end
  end.

End Text.

(* ------------------------------------------------------------------ *)
(** ** Prescription parser and recommendation engine
    ([src/unnamed/part_007], the module imported as [@/lib/recommendation]) *)
Module Recommendation.
Import Text.
Local Open Scope Z_scope.

(** [Number(s)] on the strings the capture groups can hold,
    [[+-]?\d+(\.\d+)?]: the digits [m] over [10^k], rounded to nearest-even
    binary64 in one step (IEEE division of the exact integers). *)
Definition decimal_value (neg : bool) (m : Z) (k : nat) : float :=
  match m with
  | Zpos p =>
      SF2Prim (SFdiv prec emax (S754_finite neg p 0)
                 (S754_finite false (Z.to_pos (10 ^ Z.of_nat k)) 0))
  | _ => if neg then (- 0)%float else 0%float
  end.

Definition digits_value (d : cstring) : Z :=
  fold_left (fun acc c => acc * 10 + (c - 48)) d 0.

Definition number_of_decimal (s : cstring) : float :=
  let '(neg, body) :=
    match s with
    | c :: r => if c =? 45 then (true, r) else if c =? 43 then (false, r) else (false, s)
    | [] => (false, s)
    end in
  let '(ip, rest) := take_digits body in
  let fp := match rest with _ :: f => f | [] => [] end in
  decimal_value neg (digits_value (ip ++ fp)) (length fp).

(** The capture group [([+-]?\d+(?:\.\d+)?)] at the head of [s]. *)
Definition capture_signed_decimal (s : cstring) : option cstring :=
  let '(sign, body) :=
    match s with
    | c :: r => if (c =? 43) || (c =? 45) then ([c], r) else ([], s)
    | [] => ([], s)
    end in
  match take_digits body with
  | ([], _) => None
  | (ip, 46 :: r) =>
      match take_digits r with
      | ([], _) => Some (sign ++ ip)
      | (fp, _) => Some (sign ++ ip ++ [46] ++ fp)
      end
  | (ip, _) => Some (sign ++ ip)
  end.

(** [\d{1,3}] (greedy) at the head of [s]. *)
Definition capture_digits_1_3 (s : cstring) : option cstring :=
  match take_digits s with
  | ([], _) => None
  | (d, _) => Some (firstn 3 d)
  end.

(** [\b<kw>\b\s*[:=]?\s*<value>] tried at one position. *)
Definition try_keyword (kws : list cstring) (value : cstring -> option cstring)
    (prev : option Z) (s : cstring) : option cstring :=
  let after_kw rest :=
    if word_boundary (Some 65) (head rest) then
      let r1 := skip_ws rest in
      let r2 := match r1 with
                | c :: r => if (c =? 58) || (c =? 61) then r else r1
                | [] => r1
                end in
      value (skip_ws r2)
    else None in
  if word_boundary prev (head s) then
    fold_right (fun kw acc =>
                  match match_ci kw s with
                  | Some rest => match after_kw rest with
                                 | Some v => Some v
                                 | None => acc
                                 end
                  | None => acc
                  end) None kws
  else None.

(** [/(?:\bSPH\b|\bsph\b)\s*[:=]?\s*([+-]?\d+(?:\.\d+)?)/i] *)
Definition sph_regex (s : cstring) : option cstring :=
  search (try_keyword [cps "SPH"; cps "sph"] capture_signed_decimal) None s.

(** [/(?:\bCYL\b|\bcyl\b)\s*[:=]?\s*([+-]?\d+(?:\.\d+)?)/i] *)
Definition cyl_regex (s : cstring) : option cstring :=
  search (try_keyword [cps "CYL"; cps "cyl"] capture_signed_decimal) None s.

(** [/(?:\bAX(?:IS)?\b|\baxe\b)\s*[:=]?\s*(\d{1,3})/i]: the alternatives
    in the order the engine tries them (AXIS, AX, axe). *)
Definition axis_regex (s : cstring) : option cstring :=
  search (try_keyword [cps "AXIS"; cps "AX"; cps "axe"] capture_digits_1_3) None s.

Record Prescription := mkPrescription {
  sph : option float;
  cyl : option float;
  axis : option float
}.

Definition finite_or_undefined (x : option float) : option float :=
  match x with
  | Some v => if is_finite v then Some v else None
  | None => None
  end.

Definition parsePrescription (text : cstring) : option Prescription :=
  let normalized := trim (collapse_spaces (commas_to_dots text)) in
  let sph := option_map number_of_decimal (sph_regex normalized) in
  let cyl := option_map number_of_decimal (cyl_regex normalized) in
  let axis := option_map number_of_decimal (axis_regex normalized) in
  match sph, cyl, axis with
  | None, None, None => None
  | _, _, _ => Some (mkPrescription (finite_or_undefined sph)
                       (finite_or_undefined cyl) (finite_or_undefined axis))
  end.

Inductive VisualNeed := screen | outdoor | driving | easy_clean | premium_clarity.
Inductive Budget := basic | mid | premium.
Inductive Coating := AR | HARD | HYDRO | PHOTO | BLUECUT.

Definition VisualNeed_eqb (a b : VisualNeed) : bool :=
  match a, b with
  | screen, screen | outdoor, outdoor | driving, driving
  | easy_clean, easy_clean | premium_clarity, premium_clarity => true
  | _, _ => false
  end.

Definition includes (needs : list VisualNeed) (n : VisualNeed) : bool :=
  existsb (VisualNeed_eqb n) needs.

(** The rationale strings, in the order they are pushed; [R_maxPower p]
    is the template [`Indice recommandé basé sur la puissance max
    (~${maxPower.toFixed(2)}D).`] at [p]. *)
Inductive Rationale :=
  | R_AR          (* "Antireflet (AR) pour réduire les reflets ..." *)
  | R_HARD        (* "Durci pour limiter les micro-rayures." *)
  | R_HYDRO       (* "Hydrophobe pour faciliter le nettoyage ..." *)
  | R_BLUECUT     (* "Blue Cut si usage écrans important ..." *)
  | R_PHOTO       (* "Photochromique si alternance intérieur/extérieur ..." *)
  | R_maxPower (p : float)
  | R_cylinder    (* "Cylindre élevé: on privilégie souvent ..." *)
  | R_budget_basic    (* "Budget basique: on privilégie l'essentiel ..." *)
  | R_budget_premium. (* "Budget premium: on privilégie des gammes ..." *)

Record Recommendation := mkRecommendation {
  recommendedIndex : option float;
  wantBlueCut : bool;
  wantPhotochromic : bool;
  coatings : list Coating;
  rationale : list Rationale
}.

Local Open Scope float_scope.

(** [Math.max] on two numbers (NaN if either is NaN; +0 above -0). *)
Definition js_max (a b : float) : float :=
  if is_nan a || is_nan b then nan
  else if a <? b then b
  else if b <? a then a
  else if get_sign a then b else a.

Definition clampIndex (idx : float) : float :=
  if idx <=? 1.5 then 1.5
  else if idx <=? 1.56 then 1.56
  else if idx <=? 1.6 then 1.6
  else if idx <=? 1.67 then 1.67
  else 1.74.

(** The two principal meridian powers [p1 = |sph|], [p2 = |sph + cyl|]. *)
Definition principal_powers (sph cyl : float) : float * float :=
  (abs sph, abs (sph + cyl)).

(** The power-to-index step of [recommendFromInputs]. *)
Definition index_of_power (maxPower : float) : float :=
  if maxPower <=? 2 then 1.5
  else if maxPower <=? 3.5 then 1.56
  else if maxPower <=? 6 then 1.6
  else if maxPower <=? 8 then 1.67
  else 1.74.

Definition recommendFromInputs (prescription : option Prescription)
    (needs_param : option (list VisualNeed)) (budget : option Budget)
    : Recommendation :=
  let coatings0 := [AR; HARD; HYDRO] in
  let rationale0 := [R_AR; R_HARD; R_HYDRO] in
  let needs := match needs_param with Some n => n | None => [] end in
  let '(wantBlueCut, coatings1, rationale1) :=
    if includes needs screen
    then (true, coatings0 ++ [BLUECUT], rationale0 ++ [R_BLUECUT])
    else (false, coatings0, rationale0) in
  let '(wantPhotochromic, coatings2, rationale2) :=
    if includes needs outdoor || includes needs driving
    then (true, coatings1 ++ [PHOTO], rationale1 ++ [R_PHOTO])
    else (false, coatings1, rationale1) in
  let '(recommendedIndex, rationale3) :=
    match prescription with
    | Some {| sph := s; cyl := c |} =>
        match s, c with
        | None, None => (None, rationale2)
        | _, _ =>
            let sph := match s with Some v => v | None => 0 end in
            let cyl := match c with Some v => v | None => 0 end in
            let '(p1, p2) := principal_powers sph cyl in
            let maxPower := js_max p1 p2 in
            let idx := index_of_power maxPower in
            let r := rationale2 ++ [R_maxPower maxPower] in
            if 2 <=? abs cyl then
              let bumped := clampIndex (idx + 0.07) in
              if negb (bumped =? idx) then (Some bumped, r ++ [R_cylinder])
              else (Some idx, r)
            else (Some idx, r)
        end
    | None => (None, rationale2)
    end in
  let rationale4 :=
    match budget with
    | Some basic => rationale3 ++ [R_budget_basic]
    | Some premium => rationale3 ++ [R_budget_premium]
    | _ => rationale3
    end in
  mkRecommendation recommendedIndex wantBlueCut wantPhotochromic coatings2 rationale4.

(** The recommendation for a prescription with a given [sph] and [cyl]
    field and no stated needs or budget (as in [POST /api/chat]). *)
Definition recommend_for (s : float) (c : option float) : Recommendation :=
  recommendFromInputs (Some (mkPrescription (Some s) c None)) None None.

(** The larger principal meridian power, as computed in [recommendFromInputs]. *)
Definition max_power (s cyl : float) : float :=
  let '(p1, p2) := principal_powers s cyl in js_max p1 p2.

(** The cylinder step of [recommendFromInputs] on an index [idx]. *)
Definition cylinder_step (cyl idx : float) : float :=
  if 2 <=? abs cyl then
    let bumped := clampIndex (idx + 0.07) in
    if negb (bumped =? idx) then bumped else idx
  else idx.

(** Position of a standard index in 1.50 < 1.56 < 1.60 < 1.67 < 1.74. *)
Definition index_rank (x : float) : nat :=
  if x =? 1.5 then 0 else if x =? 1.56 then 1 else if x =? 1.6 then 2
  else if x =? 1.67 then 3 else 4.

(** The next standard index at or above [idx + 0.07], capped at 1.74, for
    the standard indices other than 1.60. *)
Definition cylinder_bump_table (idx : float) : float :=
  if idx =? 1.5 then 1.6 else if idx =? 1.56 then 1.67 else 1.74.

End Recommendation.

(* ------------------------------------------------------------------ *)
(** ** The Unicode character data of the JavaScript engine

    [\p{Script=...}] in a [u]-flag regular expression and
    [String.prototype.toLowerCase] follow the Unicode version of the
    engine (its ICU), which changes from release to release: code points
    get assigned to a script, case mappings are added.  The model takes
    these tables as a parameter, so every statement made with them holds
    for any Unicode version.  The one fact assumed of the tables holds in
    every version: the white space characters of [\s] and [trim] have
    script Common (U+1680 is Ogham), so none of them is Arabic, Cyrillic,
    Han, Hiragana, Katakana or Hangul. *)
Module Scripts.
Import Text.
Local Open Scope Z_scope.

Definition in_ranges (rs : list (Z * Z)) (c : Z) : bool :=
  existsb (fun '(lo, hi) => (lo <=? c) && (c <=? hi)) rs.

Class UnicodeData := {
  is_arabic : Z -> bool;                 (* [\p{Script=Arabic}] *)
  is_cyrillic : Z -> bool;               (* [\p{Script=Cyrillic}] *)
  is_han : Z -> bool;                    (* [\p{Script=Han}] *)
  is_hiragana : Z -> bool;               (* [\p{Script=Hiragana}] *)
  is_katakana : Z -> bool;               (* [\p{Script=Katakana}] *)
  is_hangul : Z -> bool;                 (* [\p{Script=Hangul}] *)
  toLowerCase : cstring -> cstring;      (* [String.prototype.toLowerCase] *)
  white_space_in_no_script : forall c, is_js_space c = true ->
    is_arabic c = false /\ is_cyrillic c = false /\ is_han c = false
    /\ is_hiragana c = false /\ is_katakana c = false /\ is_hangul c = false
}.

End Scripts.

(* ------------------------------------------------------------------ *)
(** ** Language detector ([src/src/lib/language.ts]) *)
Module Language.
Import Text Scripts.
Local Open Scope Z_scope.

Inductive SupportedLanguage := fr | en | ar | dz.
Inductive LanguageDetectionConfidence := high | medium | low.

Record LanguageDetection := mkDetection {
  lang : SupportedLanguage;
  confidence : LanguageDetectionConfidence
}.

Fixpoint prefixb (p s : cstring) : bool :=
  match p, s with
  | [], _ => true
  | a :: p', c :: s' => (a =? c) && prefixb p' s'
  | _ :: _, [] => false
  end.

(** [s.includes(w)] *)
Fixpoint includes (s w : cstring) : bool :=
  prefixb w s || match s with [] => false | _ :: r => includes r w end.

Definition DARJA_HINTS : list cstring :=
  map cps ["wesh"; "wach"; "sahbi"; "sahbiya"; "chhal"; "ch7al"; "bezzaf"; "mlih";
           "mliha"; "kifach"; "win"; "rani"; "rak"; "rana"; "khoya"; "khouya";
           "brk"; "bzzf"]%string.

Definition FRENCH_HINT_WORDS : list cstring :=
  map cps ["bonjour"; "salut"; "bonsoir"; "merci"; "svp"; "s'il"; "sil"; "vous"; "stp";
           "je"; "tu"; "il"; "elle"; "on"; "nous"; "vous"; "ils"; "elles"; "mon"; "ma";
           "mes"; "ton"; "ta"; "tes"; "notre"; "votre"; "pour"; "avec"; "sans"; "dans";
           "sur"; "chez"; "de"; "des"; "du"; "la"; "le"; "les"; "un"; "une"; "et"; "ou";
           "mais"; "donc"; "car"; "verre"; "verres"; "lentille"; "lentilles";
           "antireflet"; "anti-reflet"; "photochromique"; "progressif"; "progressifs";
           "traitement"; "traitements"; "monture"; "ordonnance"; "cyl"; "sph"; "axe"]%string.

Definition ENGLISH_HINT_WORDS : list cstring :=
  map cps ["hello"; "hi"; "thanks"; "please"; "what"; "how"; "which"; "price"; "cost";
           "available"; "availability"; "in stock"; "lens"; "lenses"; "coating";
           "coatings"; "prescription"; "progressive"]%string.

(** [new RegExp(`(^|\W)${w}(\W|$)`, "i").test(lower)] *)
Definition whole_word_test (w lower : cstring) : bool :=
  match search (fun prev s =>
                  if negb (is_word_opt prev) then
                    match match_ci w s with
                    | Some rest => if negb (is_word_opt (head rest)) then Some tt else None
                    | None => None
                    end
                  else None) None lower with
  | Some _ => true
  | None => false
  end.

Definition countWordHits (lower : cstring) (words : list cstring) : nat :=
  fold_left (fun hits w =>
               match w with
               | [] => hits
               | _ => if (length w <=? 3)%nat then
                        (if whole_word_test w lower then S hits else hits)
                      else (if includes lower w then S hits else hits)
               end) words O.

(** [/[éèêàùçœ]/i]: the letters and their upper-case forms. *)
Definition is_french_accent (c : Z) : bool :=
  existsb (Z.eqb c) [0xE9; 0xE8; 0xEA; 0xE0; 0xF9; 0xE7; 0x153;
                     0xC9; 0xC8; 0xCA; 0xC0; 0xD9; 0xC7; 0x152].

Section Detector.
Context {U : UnicodeData}.

Definition detectLanguageInfo (text : cstring) : LanguageDetection :=
  let t := trim text in
  match t with
  | [] => mkDetection fr low
  | _ =>
    if existsb is_arabic t then mkDetection ar high
    else
      let lower := toLowerCase t in
      if existsb (includes lower) DARJA_HINTS then mkDetection dz medium
      else if existsb is_french_accent t then mkDetection fr high
      else
        let frScore := countWordHits lower FRENCH_HINT_WORDS in
        let enScore := countWordHits lower ENGLISH_HINT_WORDS in
        if (frScore =? 0)%nat && (enScore =? 0)%nat then mkDetection fr low
        else
          let diff := if (enScore <=? frScore)%nat then (frScore - enScore)%nat
                      else (enScore - frScore)%nat in
          let confidence := if (3 <=? diff)%nat then high
                            else if (1 <=? diff)%nat then medium else low in
          if (enScore <=? frScore)%nat then mkDetection fr confidence
          else mkDetection en confidence
  end.

End Detector.

End Language.

(* ------------------------------------------------------------------ *)
(** ** Response stream processor ([src/src/app/api/chat/route.ts]) *)
Module StreamClean.
Import Text Scripts Language.
Local Open Scope Z_scope.

(** [text.replace(/<literal>/g, "")]: occurrences removed left to right
    without overlap; [skip] counts the characters of a match still to drop. *)
Fixpoint remove_lit (pat : cstring) (skip : nat) (s : cstring) : cstring :=
  match s with
  | [] => []
  | c :: r =>
      match skip with
      | S k => remove_lit pat k r
      | O => if prefixb pat s then remove_lit pat (pred (length pat)) r
             else c :: remove_lit pat O r
      end
  end.

Definition replace_all_empty (pat : cstring) (s : cstring) : cstring :=
  remove_lit pat O s.

(** [text.replace(/<char>/g, "")] *)
Definition remove_char (x : Z) (s : cstring) : cstring :=
  List.filter (fun c => negb (c =? x)) s.

Definition sanitizeAssistantChunk (text : cstring) : cstring :=
  remove_char 13 (remove_char 0
    (replace_all_empty (cps "<|endoftext|>")
    (replace_all_empty (cps "<|system|>")
    (replace_all_empty (cps "<|user|>")
    (replace_all_empty (cps "<|assistant|>")
    (replace_all_empty (cps "<|im_end|>")
    (replace_all_empty (cps "<|im_start|>") text))))))).

Section Filters.
Context {U : UnicodeData}.

Definition cjk_or_cyrillic (c : Z) : bool :=
  is_cyrillic c || is_han c || is_hiragana c || is_katakana c || is_hangul c.

Definition filterDisallowedScriptsByLanguage (text : cstring) (l : SupportedLanguage)
    : cstring :=
  match l with
  | ar | dz => List.filter (fun c => negb (cjk_or_cyrillic c)) text
  | fr | en => List.filter (fun c => negb (is_arabic c || cjk_or_cyrillic c)) text
  end.

Definition is_blank (c : Z) : bool := (c =? 32) || (c =? 9).

(** [.replace(/[ \t]{2,}/g, " ")]: [acc] is the current run of blanks. *)
Definition flush_blank_run (acc : cstring) : cstring :=
  match acc with
  | [] => []
  | [x] => [x]
  | _ => [32]
  end.

Fixpoint collapse_blank_runs (acc : cstring) (s : cstring) : cstring :=
  match s with
  | [] => flush_blank_run acc
  | c :: r =>
      if is_blank c then collapse_blank_runs (c :: acc) r
      else flush_blank_run acc ++ c :: collapse_blank_runs [] r
  end.

(** [.replace(/[ \t]+\n/g, "\n")]: [acc] is the current run, reversed. *)
Fixpoint drop_blanks_before_newline (acc : cstring) (s : cstring) : cstring :=
  match s with
  | [] => rev acc
  | c :: r =>
      if is_blank c then drop_blanks_before_newline (c :: acc) r
      else if c =? 10 then 10 :: drop_blanks_before_newline [] r
      else rev acc ++ c :: drop_blanks_before_newline [] r
  end.

(** [.replace(/\n{4,}/g, "\n\n\n")]: [k] newlines seen in a row. *)
Definition flush_newlines (k : nat) : cstring :=
  if (4 <=? k)%nat then [10; 10; 10] else repeat 10 k.

Fixpoint cap_newline_runs (k : nat) (s : cstring) : cstring :=
  match s with
  | [] => flush_newlines k
  | c :: r =>
      if c =? 10 then cap_newline_runs (S k) r
      else flush_newlines k ++ c :: cap_newline_runs O r
  end.

Definition normalizeWhitespaceAfterFiltering (text : cstring) : cstring :=
  cap_newline_runs O (drop_blanks_before_newline [] (collapse_blank_runs [] text)).

Definition postProcessAssistantChunk (text : cstring) (l : SupportedLanguage) : cstring :=
  let cleaned := sanitizeAssistantChunk text in
  let filtered := filterDisallowedScriptsByLanguage cleaned l in
  normalizeWhitespaceAfterFiltering filtered.

Definition postProcessAssistantText (text : cstring) (l : SupportedLanguage) : cstring :=
  let cleaned := sanitizeAssistantChunk text in
  let filtered := filterDisallowedScriptsByLanguage cleaned l in
  trim (normalizeWhitespaceAfterFiltering filtered).

End Filters.

End StreamClean.

(* ------------------------------------------------------------------ *)
(** ** Message edit and delete routes
    ([src/unnamed/part_005], [PATCH] and [DELETE] of
    [/api/chats/[chatId]/messages/[messageId]]).  The Prisma store holds
    the chat messages by id and, per chat session, its [updatedAt]
    timestamp.  [prisma.*.update] and [prisma.*.delete] throw when the
    record does not exist; a zod [parse] failure throws too. *)
Module MessageRoutes.
Import Text.
Local Open Scope Z_scope.

Record ChatMessage := mkChatMessage {
  cm_id : string;
  cm_chatId : string;
  cm_role : string;
  cm_content : cstring
}.

Record Db := mkDb {
  messages : gmap string ChatMessage;
  sessionUpdatedAt : gmap string Z
}.

Inductive Response :=
  | MessageJson (m : ChatMessage)          (* 200 [{ message: updated }] *)
  | OkJson                                 (* 200 [{ ok: true }] *)
  | ErrorJson (status : Z) (error : string)
  | Thrown (reason : string).

(** [ParamsSchema]: both ids [z.string().min(1)]. *)
Definition params_ok (chatId messageId : string) : bool :=
  negb (String.eqb chatId EmptyString) && negb (String.eqb messageId EmptyString).

(** [PatchMessageSchema]: [z.string().trim().min(1).max(10_000)]; the
    parsed value is the trimmed string. *)
Definition parse_patch_content (content : cstring) : option cstring :=
  let c := trim content in
  if ((length c =? 0)%nat || (10000 <? N.of_nat (length c))%N)%bool then None else Some c.

Definition with_content (m : ChatMessage) (c : cstring) : ChatMessage :=
  mkChatMessage (cm_id m) (cm_chatId m) (cm_role m) c.

(** [prisma.chatSession.update({ where: { id }, data: { updatedAt: now } })] *)
Definition touch_session (now : Z) (chatId : string) (db : Db) : option Db :=
  match sessionUpdatedAt db !! chatId with
  | Some _ => Some (mkDb (messages db) (<[chatId := now]> (sessionUpdatedAt db)))
  | None => None
  end.

Definition PATCH (now : Z) (chatId messageId : string) (content : cstring) (db : Db)
  : Response * Db :=
  if negb (params_ok chatId messageId) then (Thrown "ZodError", db) else
  match parse_patch_content content with
  | None => (Thrown "ZodError", db)
  | Some c =>
      (* [prisma.chatMessage.update({ where: { id: messageId }, ... })] *)
      match messages db !! messageId with
      | None => (Thrown "RecordNotFound", db)
      | Some m =>
          let updated := with_content m c in
          let db1 := mkDb (<[messageId := updated]> (messages db)) (sessionUpdatedAt db) in
          if negb (String.eqb (cm_chatId updated) chatId)
          then (ErrorJson 400 "Message/chat mismatch", db1)
          else match touch_session now chatId db1 with
               | None => (Thrown "RecordNotFound", db1)
               | Some db2 => (MessageJson updated, db2)
               end
      end
  end%string.

Definition DELETE (now : Z) (chatId messageId : string) (db : Db) : Response * Db :=
  if negb (params_ok chatId messageId) then (Thrown "ZodError", db) else
  (* [prisma.chatMessage.delete({ where: { id: messageId }, ... })] *)
  match messages db !! messageId with
  | None => (Thrown "RecordNotFound", db)
  | Some deleted =>
      let db1 := mkDb (delete messageId (messages db)) (sessionUpdatedAt db) in
      if negb (String.eqb (cm_chatId deleted) chatId)
      then (ErrorJson 400 "Message/chat mismatch", db1)
      else match touch_session now chatId db1 with
           | None => (Thrown "RecordNotFound", db1)
           | Some db2 => (OkJson, db2)
           end
  end%string.

(** The foreign key [ChatMessage_chatId_fkey] of the first migration
    ([FOREIGN KEY ("chatId") REFERENCES "ChatSession" ("id") ON DELETE
    CASCADE]): every stored message names an existing session.  The
    database enforces it; the routes above delete no session, so its
    cascade never fires here. *)
Definition db_wf (db : Db) : Prop :=
  map_Forall (fun _ m => is_Some (sessionUpdatedAt db !! cm_chatId m)) (messages db).

End MessageRoutes.

(* ------------------------------------------------------------------ *)
(** ** Provider history of a generative turn ([route.ts], [POST]).
    The session's persisted messages are given in [createdAt] order,
    oldest first (the order of [orderBy: { createdAt: "asc" }]). *)
Module ChatHistory.
Import Text.

Record StoredMessage := mkStored { sm_role : string; sm_content : cstring }.

Record OllamaMessage := mkOllama { om_role : string; om_content : cstring }.

Definition safeRole (role : string) : string :=
  if (String.eqb role "user" || String.eqb role "assistant" || String.eqb role "system")%bool
  then role else "user"%string.

(** [findMany({ where: { chatId }, orderBy: { createdAt: "asc" }, take: 14 })] *)
Definition recent (persisted : list StoredMessage) : list StoredMessage :=
  firstn 14 persisted.

(** JS [arr.slice(-n)] for [n > 0]. *)
Definition slice_neg (n : nat) {A} (l : list A) : list A :=
  skipn (length l - n) l.

Definition history (persisted : list StoredMessage) : list OllamaMessage :=
  slice_neg 12
    (map (fun m => mkOllama (safeRole (sm_role m)) (sm_content m))
       (List.filter (fun m => negb (String.eqb (sm_role m) "system")) (recent persisted))).

(** The history the specification describes: the last 12 persisted
    non-system messages, oldest first. *)
Definition spec_history (persisted : list StoredMessage) : list OllamaMessage :=
  slice_neg 12
    (map (fun m => mkOllama (safeRole (sm_role m)) (sm_content m))
       (List.filter (fun m => negb (String.eqb (sm_role m) "system")) persisted)).

End ChatHistory.

(* ------------------------------------------------------------------ *)
(** ** Memory effects of a chat turn ([route.ts], [POST] and
    [upsertMemory]).  The [chatMemory] table is keyed by
    [(scope, key)]; [upsert] writes the value whether or not the row
    exists.  [availabilityQuestionType], [lang], the chat id and the
    serialised prescription are the values [POST] has computed by the
    time it reaches the short-circuit test. *)
Module ChatMemory.
Import Language.

Inductive AvailabilityQuestionType := availability | quantity.

Definition lang_code (l : SupportedLanguage) : string :=
  match l with fr => "fr" | en => "en" | ar => "ar" | dz => "dz" end%string.

Definition upsertMemory (scope key value : string) (mem : gmap (string * string) string)
  : gmap (string * string) string :=
  <[(scope, key) := value]> mem.

Definition turn_memory (availabilityQuestionType : option AvailabilityQuestionType)
    (lang : SupportedLanguage) (chatId : string) (prescriptionJson : option string)
    (mem : gmap (string * string) string) : gmap (string * string) string :=
  match availabilityQuestionType with
  | Some _ =>
      (* deterministic stock answer: the branch returns its response here *)
      mem
  | None =>
      let mem1 := upsertMemory "global" "lastLanguage" (lang_code lang) mem in
      match prescriptionJson with
      | Some v => upsertMemory ("chat:" ++ chatId) "prescription" v mem1
      | None => mem1
      end
  end%string.

End ChatMemory.

(* ------------------------------------------------------------------ *)
(** ** Session title and rolling summary ([route.ts],
    [compactTitleFromUserText], [appendToSummary],
    [buildSummaryFromMessages]).  [length] and [slice] count UTF-16 code
    units: here the lists hold code units (every character class used,
    [\s] and [\r\n], lies in the BMP, so it classifies code units the
    same way). *)
Module ChatText.
Import Text ChatHistory.
Local Open Scope Z_scope.

(** [.replace(/[\r\n]+/g, " ")] *)
Fixpoint replace_crlf_runs (in_run : bool) (s : cstring) : cstring :=
  match s with
  | [] => []
  | c :: r =>
      if (c =? 13) || (c =? 10) then
        (if in_run then replace_crlf_runs true r else 32 :: replace_crlf_runs true r)
      else c :: replace_crlf_runs false r
  end.

(** [s.split(sep)] for a one-character separator. *)
Fixpoint split_on (sep : Z) (s : cstring) : list cstring :=
  match s with
  | [] => [[]]
  | c :: r =>
      if c =? sep then [] :: split_on sep r
      else match split_on sep r with
           | w :: ws => (c :: w) :: ws
           | [] => [[c]]
           end
  end.

(** [parts.join(sep)] for a one-character separator. *)
Fixpoint join (sep : Z) (parts : list cstring) : cstring :=
  match parts with
  | [] => []
  | [w] => w
  | w :: ws => w ++ sep :: join sep ws
  end.

Definition compactTitleFromUserText (text : cstring) : cstring :=
  let cleaned := trim (replace_crlf_runs false (collapse_spaces text)) in
  match cleaned with
  | [] => cps "Nouveau chat"
  | _ =>
      let words := join 32 (firstn 7 (split_on 32 cleaned)) in
      if (80 <? length words)%nat then firstn 77 words ++ cps "..." else words
  end.

(** [const clip = (s) => s.replace(/\s+/g, " ").trim().slice(0, 280)] *)
Definition clip (s : cstring) : cstring := firstn 280 (trim (collapse_spaces s)).

(** [prev] is [null]/[undefined] ([None]) or a string. *)
Definition appendToSummary (prev : option cstring) (user assistant : cstring) : cstring :=
  let p := match prev with Some p => trim p | None => [] end in
  let next :=
    join 10 (List.filter (fun x => match x with [] => false | _ => true end)
               [p; cps "U: " ++ clip user; cps "A: " ++ clip assistant]) in
  if (2000 <? length next)%nat then skipn (length next - 2000) next else next.

(** The loop [for (let i = 0; i < pairs.length; i += 2)] over the pairs
    [(pairs[i], pairs[i + 1])]. *)
Fixpoint summary_loop (summary : cstring) (pairs : list StoredMessage) : cstring :=
  match pairs with
  | u :: a :: rest =>
      let summary' :=
        if String.eqb (sm_role u) "user" && String.eqb (sm_role a) "assistant"
        then appendToSummary (Some summary) (sm_content u) (sm_content a)
        else summary in
      summary_loop summary' rest
  | _ => summary
  end%string.

Definition buildSummaryFromMessages (pairs : list StoredMessage) : cstring :=
  let summary := summary_loop [] pairs in
  match trim summary with [] => [] | _ => summary end.

End ChatText.

(* ================================================================== *)
(** * Properties *)

(* ------------------------------------------------------------------ *)
(** ** One engine's Unicode data: Unicode 14.0

    The script ranges of [Scripts.txt] (the [Script] property, not
    [Script_Extensions]) and the default case conversion to lower case of
    Unicode 14.0: the simple mappings of [UnicodeData.txt], the
    unconditional mapping of U+0130 of [SpecialCasing.txt], and
    Final_Sigma for U+03A3, decided as ICU does it: skip the
    Case_Ignorable characters on each side, then test Cased.  The
    examples below run on this instance. *)
Module Unicode14.
Import Text Scripts.
Local Open Scope Z_scope.

Definition arabic_ranges : list (Z * Z) :=
  [(0x600, 0x604); (0x606, 0x60B); (0x60D, 0x61A); (0x61C, 0x61E);
   (0x620, 0x63F); (0x641, 0x64A); (0x656, 0x66F); (0x671, 0x6DC);
   (0x6DE, 0x6FF); (0x750, 0x77F); (0x870, 0x88E); (0x890, 0x891);
   (0x898, 0x8E1); (0x8E3, 0x8FF); (0xFB50, 0xFBC2); (0xFBD3, 0xFD3D);
   (0xFD40, 0xFD8F); (0xFD92, 0xFDC7); (0xFDCF, 0xFDCF); (0xFDF0, 0xFDFF);
   (0xFE70, 0xFE74); (0xFE76, 0xFEFC); (0x10E60, 0x10E7E); (0x1EE00, 0x1EE03);
   (0x1EE05, 0x1EE1F); (0x1EE21, 0x1EE22); (0x1EE24, 0x1EE24); (0x1EE27, 0x1EE27);
   (0x1EE29, 0x1EE32); (0x1EE34, 0x1EE37); (0x1EE39, 0x1EE39); (0x1EE3B, 0x1EE3B);
   (0x1EE42, 0x1EE42); (0x1EE47, 0x1EE47); (0x1EE49, 0x1EE49); (0x1EE4B, 0x1EE4B);
   (0x1EE4D, 0x1EE4F); (0x1EE51, 0x1EE52); (0x1EE54, 0x1EE54); (0x1EE57, 0x1EE57);
   (0x1EE59, 0x1EE59); (0x1EE5B, 0x1EE5B); (0x1EE5D, 0x1EE5D); (0x1EE5F, 0x1EE5F);
   (0x1EE61, 0x1EE62); (0x1EE64, 0x1EE64); (0x1EE67, 0x1EE6A); (0x1EE6C, 0x1EE72);
   (0x1EE74, 0x1EE77); (0x1EE79, 0x1EE7C); (0x1EE7E, 0x1EE7E); (0x1EE80, 0x1EE89);
   (0x1EE8B, 0x1EE9B); (0x1EEA1, 0x1EEA3); (0x1EEA5, 0x1EEA9); (0x1EEAB, 0x1EEBB);
   (0x1EEF0, 0x1EEF1)].

Definition cyrillic_ranges : list (Z * Z) :=
  [(0x400, 0x484); (0x487, 0x52F); (0x1C80, 0x1C88); (0x1D2B, 0x1D2B);
   (0x1D78, 0x1D78); (0x2DE0, 0x2DFF); (0xA640, 0xA69F); (0xFE2E, 0xFE2F)].

Definition han_ranges : list (Z * Z) :=
  [(0x2E80, 0x2E99); (0x2E9B, 0x2EF3); (0x2F00, 0x2FD5); (0x3005, 0x3005);
   (0x3007, 0x3007); (0x3021, 0x3029); (0x3038, 0x303B); (0x3400, 0x4DBF);
   (0x4E00, 0x9FFF); (0xF900, 0xFA6D); (0xFA70, 0xFAD9); (0x16FE2, 0x16FE3);
   (0x16FF0, 0x16FF1); (0x20000, 0x2A6DF); (0x2A700, 0x2B738); (0x2B740, 0x2B81D);
   (0x2B820, 0x2CEA1); (0x2CEB0, 0x2EBE0); (0x2F800, 0x2FA1D); (0x30000, 0x3134A)].

Definition hiragana_ranges : list (Z * Z) :=
  [(0x3041, 0x3096); (0x309D, 0x309F); (0x1B001, 0x1B11F); (0x1B150, 0x1B152);
   (0x1F200, 0x1F200)].

Definition katakana_ranges : list (Z * Z) :=
  [(0x30A1, 0x30FA); (0x30FD, 0x30FF); (0x31F0, 0x31FF); (0x32D0, 0x32FE);
   (0x3300, 0x3357); (0xFF66, 0xFF6F); (0xFF71, 0xFF9D); (0x1AFF0, 0x1AFF3);
   (0x1AFF5, 0x1AFFB); (0x1AFFD, 0x1AFFE); (0x1B000, 0x1B000); (0x1B120, 0x1B122);
   (0x1B164, 0x1B167)].

Definition hangul_ranges : list (Z * Z) :=
  [(0x1100, 0x11FF); (0x302E, 0x302F); (0x3131, 0x318E); (0x3200, 0x321E);
   (0x3260, 0x327E); (0xA960, 0xA97C); (0xAC00, 0xD7A3); (0xD7B0, 0xD7C6);
   (0xD7CB, 0xD7FB); (0xFFA0, 0xFFBE); (0xFFC2, 0xFFC7); (0xFFCA, 0xFFCF);
   (0xFFD2, 0xFFD7); (0xFFDA, 0xFFDC)].

(** Lower-case mapping runs [(lo, hi, step, delta)]: every [step]-th
    code point from [lo] to [hi] maps to itself plus [delta]. *)
Definition lower_runs : list (Z * Z * Z * Z) :=
  [(0x41, 0x5A, 1, 32); (0xC0, 0xD6, 1, 32); (0xD8, 0xDE, 1, 32);
   (0x100, 0x12E, 2, 1); (0x132, 0x136, 2, 1); (0x139, 0x147, 2, 1);
   (0x14A, 0x176, 2, 1); (0x178, 0x178, 1, -121); (0x179, 0x17D, 2, 1);
   (0x181, 0x181, 1, 210); (0x182, 0x184, 2, 1); (0x186, 0x186, 1, 206);
   (0x187, 0x187, 1, 1); (0x189, 0x18A, 1, 205); (0x18B, 0x18B, 1, 1);
   (0x18E, 0x18E, 1, 79); (0x18F, 0x18F, 1, 202); (0x190, 0x190, 1, 203);
   (0x191, 0x191, 1, 1); (0x193, 0x193, 1, 205); (0x194, 0x194, 1, 207);
   (0x196, 0x196, 1, 211); (0x197, 0x197, 1, 209); (0x198, 0x198, 1, 1);
   (0x19C, 0x19C, 1, 211); (0x19D, 0x19D, 1, 213); (0x19F, 0x19F, 1, 214);
   (0x1A0, 0x1A4, 2, 1); (0x1A6, 0x1A6, 1, 218); (0x1A7, 0x1A7, 1, 1);
   (0x1A9, 0x1A9, 1, 218); (0x1AC, 0x1AC, 1, 1); (0x1AE, 0x1AE, 1, 218);
   (0x1AF, 0x1AF, 1, 1); (0x1B1, 0x1B2, 1, 217); (0x1B3, 0x1B5, 2, 1);
   (0x1B7, 0x1B7, 1, 219); (0x1B8, 0x1B8, 1, 1); (0x1BC, 0x1BC, 1, 1);
   (0x1C4, 0x1C4, 1, 2); (0x1C5, 0x1C5, 1, 1); (0x1C7, 0x1C7, 1, 2);
   (0x1C8, 0x1C8, 1, 1); (0x1CA, 0x1CA, 1, 2); (0x1CB, 0x1DB, 2, 1);
   (0x1DE, 0x1EE, 2, 1); (0x1F1, 0x1F1, 1, 2); (0x1F2, 0x1F4, 2, 1);
   (0x1F6, 0x1F6, 1, -97); (0x1F7, 0x1F7, 1, -56); (0x1F8, 0x21E, 2, 1);
   (0x220, 0x220, 1, -130); (0x222, 0x232, 2, 1); (0x23A, 0x23A, 1, 10795);
   (0x23B, 0x23B, 1, 1); (0x23D, 0x23D, 1, -163); (0x23E, 0x23E, 1, 10792);
   (0x241, 0x241, 1, 1); (0x243, 0x243, 1, -195); (0x244, 0x244, 1, 69);
   (0x245, 0x245, 1, 71); (0x246, 0x24E, 2, 1); (0x370, 0x372, 2, 1);
   (0x376, 0x376, 1, 1); (0x37F, 0x37F, 1, 116); (0x386, 0x386, 1, 38);
   (0x388, 0x38A, 1, 37); (0x38C, 0x38C, 1, 64); (0x38E, 0x38F, 1, 63);
   (0x391, 0x3A1, 1, 32); (0x3A3, 0x3AB, 1, 32); (0x3CF, 0x3CF, 1, 8);
   (0x3D8, 0x3EE, 2, 1); (0x3F4, 0x3F4, 1, -60); (0x3F7, 0x3F7, 1, 1);
   (0x3F9, 0x3F9, 1, -7); (0x3FA, 0x3FA, 1, 1); (0x3FD, 0x3FF, 1, -130);
   (0x400, 0x40F, 1, 80); (0x410, 0x42F, 1, 32); (0x460, 0x480, 2, 1);
   (0x48A, 0x4BE, 2, 1); (0x4C0, 0x4C0, 1, 15); (0x4C1, 0x4CD, 2, 1);
   (0x4D0, 0x52E, 2, 1); (0x531, 0x556, 1, 48); (0x10A0, 0x10C5, 1, 7264);
   (0x10C7, 0x10C7, 1, 7264); (0x10CD, 0x10CD, 1, 7264); (0x13A0, 0x13EF, 1, 38864);
   (0x13F0, 0x13F5, 1, 8); (0x1C90, 0x1CBA, 1, -3008); (0x1CBD, 0x1CBF, 1, -3008);
   (0x1E00, 0x1E94, 2, 1); (0x1E9E, 0x1E9E, 1, -7615); (0x1EA0, 0x1EFE, 2, 1);
   (0x1F08, 0x1F0F, 1, -8); (0x1F18, 0x1F1D, 1, -8); (0x1F28, 0x1F2F, 1, -8);
   (0x1F38, 0x1F3F, 1, -8); (0x1F48, 0x1F4D, 1, -8); (0x1F59, 0x1F5F, 2, -8);
   (0x1F68, 0x1F6F, 1, -8); (0x1F88, 0x1F8F, 1, -8); (0x1F98, 0x1F9F, 1, -8);
   (0x1FA8, 0x1FAF, 1, -8); (0x1FB8, 0x1FB9, 1, -8); (0x1FBA, 0x1FBB, 1, -74);
   (0x1FBC, 0x1FBC, 1, -9); (0x1FC8, 0x1FCB, 1, -86); (0x1FCC, 0x1FCC, 1, -9);
   (0x1FD8, 0x1FD9, 1, -8); (0x1FDA, 0x1FDB, 1, -100); (0x1FE8, 0x1FE9, 1, -8);
   (0x1FEA, 0x1FEB, 1, -112); (0x1FEC, 0x1FEC, 1, -7); (0x1FF8, 0x1FF9, 1, -128);
   (0x1FFA, 0x1FFB, 1, -126); (0x1FFC, 0x1FFC, 1, -9); (0x2126, 0x2126, 1, -7517);
   (0x212A, 0x212A, 1, -8383); (0x212B, 0x212B, 1, -8262); (0x2132, 0x2132, 1, 28);
   (0x2160, 0x216F, 1, 16); (0x2183, 0x2183, 1, 1); (0x24B6, 0x24CF, 1, 26);
   (0x2C00, 0x2C2F, 1, 48); (0x2C60, 0x2C60, 1, 1); (0x2C62, 0x2C62, 1, -10743);
   (0x2C63, 0x2C63, 1, -3814); (0x2C64, 0x2C64, 1, -10727); (0x2C67, 0x2C6B, 2, 1);
   (0x2C6D, 0x2C6D, 1, -10780); (0x2C6E, 0x2C6E, 1, -10749); (0x2C6F, 0x2C6F, 1, -10783);
   (0x2C70, 0x2C70, 1, -10782); (0x2C72, 0x2C72, 1, 1); (0x2C75, 0x2C75, 1, 1);
   (0x2C7E, 0x2C7F, 1, -10815); (0x2C80, 0x2CE2, 2, 1); (0x2CEB, 0x2CED, 2, 1);
   (0x2CF2, 0x2CF2, 1, 1); (0xA640, 0xA66C, 2, 1); (0xA680, 0xA69A, 2, 1);
   (0xA722, 0xA72E, 2, 1); (0xA732, 0xA76E, 2, 1); (0xA779, 0xA77B, 2, 1);
   (0xA77D, 0xA77D, 1, -35332); (0xA77E, 0xA786, 2, 1); (0xA78B, 0xA78B, 1, 1);
   (0xA78D, 0xA78D, 1, -42280); (0xA790, 0xA792, 2, 1); (0xA796, 0xA7A8, 2, 1);
   (0xA7AA, 0xA7AA, 1, -42308); (0xA7AB, 0xA7AB, 1, -42319); (0xA7AC, 0xA7AC, 1, -42315);
   (0xA7AD, 0xA7AD, 1, -42305); (0xA7AE, 0xA7AE, 1, -42308); (0xA7B0, 0xA7B0, 1, -42258);
   (0xA7B1, 0xA7B1, 1, -42282); (0xA7B2, 0xA7B2, 1, -42261); (0xA7B3, 0xA7B3, 1, 928);
   (0xA7B4, 0xA7C2, 2, 1); (0xA7C4, 0xA7C4, 1, -48); (0xA7C5, 0xA7C5, 1, -42307);
   (0xA7C6, 0xA7C6, 1, -35384); (0xA7C7, 0xA7C9, 2, 1); (0xA7D0, 0xA7D0, 1, 1);
   (0xA7D6, 0xA7D8, 2, 1); (0xA7F5, 0xA7F5, 1, 1); (0xFF21, 0xFF3A, 1, 32);
   (0x10400, 0x10427, 1, 40); (0x104B0, 0x104D3, 1, 40); (0x10570, 0x1057A, 1, 39);
   (0x1057C, 0x1058A, 1, 39); (0x1058C, 0x10592, 1, 39); (0x10594, 0x10595, 1, 39);
   (0x10C80, 0x10CB2, 1, 64); (0x118A0, 0x118BF, 1, 32); (0x16E40, 0x16E5F, 1, 32);
   (0x1E900, 0x1E921, 1, 34)].

(** [Cased] characters that are not [Case_Ignorable]. *)
Definition cased_ranges : list (Z * Z) :=
  [(0x41, 0x5A); (0x61, 0x7A); (0xAA, 0xAA); (0xB5, 0xB5);
   (0xBA, 0xBA); (0xC0, 0xD6); (0xD8, 0xF6); (0xF8, 0x1BA);
   (0x1BC, 0x1BF); (0x1C4, 0x293); (0x295, 0x2AF); (0x370, 0x373);
   (0x376, 0x377); (0x37B, 0x37D); (0x37F, 0x37F); (0x386, 0x386);
   (0x388, 0x38A); (0x38C, 0x38C); (0x38E, 0x3A1); (0x3A3, 0x3F5);
   (0x3F7, 0x481); (0x48A, 0x52F); (0x531, 0x556); (0x560, 0x588);
   (0x10A0, 0x10C5); (0x10C7, 0x10C7); (0x10CD, 0x10CD); (0x10D0, 0x10FA);
   (0x10FD, 0x10FF); (0x13A0, 0x13F5); (0x13F8, 0x13FD); (0x1C80, 0x1C88);
   (0x1C90, 0x1CBA); (0x1CBD, 0x1CBF); (0x1D00, 0x1D2B); (0x1D6B, 0x1D77);
   (0x1D79, 0x1D9A); (0x1E00, 0x1F15); (0x1F18, 0x1F1D); (0x1F20, 0x1F45);
   (0x1F48, 0x1F4D); (0x1F50, 0x1F57); (0x1F59, 0x1F59); (0x1F5B, 0x1F5B);
   (0x1F5D, 0x1F5D); (0x1F5F, 0x1F7D); (0x1F80, 0x1FB4); (0x1FB6, 0x1FBC);
   (0x1FBE, 0x1FBE); (0x1FC2, 0x1FC4); (0x1FC6, 0x1FCC); (0x1FD0, 0x1FD3);
   (0x1FD6, 0x1FDB); (0x1FE0, 0x1FEC); (0x1FF2, 0x1FF4); (0x1FF6, 0x1FFC);
   (0x2102, 0x2102); (0x2107, 0x2107); (0x210A, 0x2113); (0x2115, 0x2115);
   (0x2119, 0x211D); (0x2124, 0x2124); (0x2126, 0x2126); (0x2128, 0x2128);
   (0x212A, 0x212D); (0x212F, 0x2134); (0x2139, 0x2139); (0x213C, 0x213F);
   (0x2145, 0x2149); (0x214E, 0x214E); (0x2160, 0x217F); (0x2183, 0x2184);
   (0x24B6, 0x24E9); (0x2C00, 0x2C7B); (0x2C7E, 0x2CE4); (0x2CEB, 0x2CEE);
   (0x2CF2, 0x2CF3); (0x2D00, 0x2D25); (0x2D27, 0x2D27); (0x2D2D, 0x2D2D);
   (0xA640, 0xA66D); (0xA680, 0xA69B); (0xA722, 0xA76F); (0xA771, 0xA787);
   (0xA78B, 0xA78E); (0xA790, 0xA7CA); (0xA7D0, 0xA7D1); (0xA7D3, 0xA7D3);
   (0xA7D5, 0xA7D9); (0xA7F5, 0xA7F6); (0xA7FA, 0xA7FA); (0xAB30, 0xAB5A);
   (0xAB60, 0xAB68); (0xAB70, 0xABBF); (0xFB00, 0xFB06); (0xFB13, 0xFB17);
   (0xFF21, 0xFF3A); (0xFF41, 0xFF5A); (0x10400, 0x1044F); (0x104B0, 0x104D3);
   (0x104D8, 0x104FB); (0x10570, 0x1057A); (0x1057C, 0x1058A); (0x1058C, 0x10592);
   (0x10594, 0x10595); (0x10597, 0x105A1); (0x105A3, 0x105B1); (0x105B3, 0x105B9);
   (0x105BB, 0x105BC); (0x10C80, 0x10CB2); (0x10CC0, 0x10CF2); (0x118A0, 0x118DF);
   (0x16E40, 0x16E7F); (0x1D400, 0x1D454); (0x1D456, 0x1D49C); (0x1D49E, 0x1D49F);
   (0x1D4A2, 0x1D4A2); (0x1D4A5, 0x1D4A6); (0x1D4A9, 0x1D4AC); (0x1D4AE, 0x1D4B9);
   (0x1D4BB, 0x1D4BB); (0x1D4BD, 0x1D4C3); (0x1D4C5, 0x1D505); (0x1D507, 0x1D50A);
   (0x1D50D, 0x1D514); (0x1D516, 0x1D51C); (0x1D51E, 0x1D539); (0x1D53B, 0x1D53E);
   (0x1D540, 0x1D544); (0x1D546, 0x1D546); (0x1D54A, 0x1D550); (0x1D552, 0x1D6A5);
   (0x1D6A8, 0x1D6C0); (0x1D6C2, 0x1D6DA); (0x1D6DC, 0x1D6FA); (0x1D6FC, 0x1D714);
   (0x1D716, 0x1D734); (0x1D736, 0x1D74E); (0x1D750, 0x1D76E); (0x1D770, 0x1D788);
   (0x1D78A, 0x1D7A8); (0x1D7AA, 0x1D7C2); (0x1D7C4, 0x1D7CB); (0x1DF00, 0x1DF09);
   (0x1DF0B, 0x1DF1E); (0x1E900, 0x1E943); (0x1F130, 0x1F149); (0x1F150, 0x1F169);
   (0x1F170, 0x1F189)].

(** [Case_Ignorable] characters. *)
Definition case_ignorable_ranges : list (Z * Z) :=
  [(0x27, 0x27); (0x2E, 0x2E); (0x3A, 0x3A); (0x5E, 0x5E);
   (0x60, 0x60); (0xA8, 0xA8); (0xAD, 0xAD); (0xAF, 0xAF);
   (0xB4, 0xB4); (0xB7, 0xB8); (0x2B0, 0x36F); (0x374, 0x375);
   (0x37A, 0x37A); (0x384, 0x385); (0x387, 0x387); (0x483, 0x489);
   (0x559, 0x559); (0x55F, 0x55F); (0x591, 0x5BD); (0x5BF, 0x5BF);
   (0x5C1, 0x5C2); (0x5C4, 0x5C5); (0x5C7, 0x5C7); (0x5F4, 0x5F4);
   (0x600, 0x605); (0x610, 0x61A); (0x61C, 0x61C); (0x640, 0x640);
   (0x64B, 0x65F); (0x670, 0x670); (0x6D6, 0x6DD); (0x6DF, 0x6E8);
   (0x6EA, 0x6ED); (0x70F, 0x70F); (0x711, 0x711); (0x730, 0x74A);
   (0x7A6, 0x7B0); (0x7EB, 0x7F5); (0x7FA, 0x7FA); (0x7FD, 0x7FD);
   (0x816, 0x82D); (0x859, 0x85B); (0x888, 0x888); (0x890, 0x891);
   (0x898, 0x89F); (0x8C9, 0x902); (0x93A, 0x93A); (0x93C, 0x93C);
   (0x941, 0x948); (0x94D, 0x94D); (0x951, 0x957); (0x962, 0x963);
   (0x971, 0x971); (0x981, 0x981); (0x9BC, 0x9BC); (0x9C1, 0x9C4);
   (0x9CD, 0x9CD); (0x9E2, 0x9E3); (0x9FE, 0x9FE); (0xA01, 0xA02);
   (0xA3C, 0xA3C); (0xA41, 0xA42); (0xA47, 0xA48); (0xA4B, 0xA4D);
   (0xA51, 0xA51); (0xA70, 0xA71); (0xA75, 0xA75); (0xA81, 0xA82);
   (0xABC, 0xABC); (0xAC1, 0xAC5); (0xAC7, 0xAC8); (0xACD, 0xACD);
   (0xAE2, 0xAE3); (0xAFA, 0xAFF); (0xB01, 0xB01); (0xB3C, 0xB3C);
   (0xB3F, 0xB3F); (0xB41, 0xB44); (0xB4D, 0xB4D); (0xB55, 0xB56);
   (0xB62, 0xB63); (0xB82, 0xB82); (0xBC0, 0xBC0); (0xBCD, 0xBCD);
   (0xC00, 0xC00); (0xC04, 0xC04); (0xC3C, 0xC3C); (0xC3E, 0xC40);
   (0xC46, 0xC48); (0xC4A, 0xC4D); (0xC55, 0xC56); (0xC62, 0xC63);
   (0xC81, 0xC81); (0xCBC, 0xCBC); (0xCBF, 0xCBF); (0xCC6, 0xCC6);
   (0xCCC, 0xCCD); (0xCE2, 0xCE3); (0xD00, 0xD01); (0xD3B, 0xD3C);
   (0xD41, 0xD44); (0xD4D, 0xD4D); (0xD62, 0xD63); (0xD81, 0xD81);
   (0xDCA, 0xDCA); (0xDD2, 0xDD4); (0xDD6, 0xDD6); (0xE31, 0xE31);
   (0xE34, 0xE3A); (0xE46, 0xE4E); (0xEB1, 0xEB1); (0xEB4, 0xEBC);
   (0xEC6, 0xEC6); (0xEC8, 0xECD); (0xF18, 0xF19); (0xF35, 0xF35);
   (0xF37, 0xF37); (0xF39, 0xF39); (0xF71, 0xF7E); (0xF80, 0xF84);
   (0xF86, 0xF87); (0xF8D, 0xF97); (0xF99, 0xFBC); (0xFC6, 0xFC6);
   (0x102D, 0x1030); (0x1032, 0x1037); (0x1039, 0x103A); (0x103D, 0x103E);
   (0x1058, 0x1059); (0x105E, 0x1060); (0x1071, 0x1074); (0x1082, 0x1082);
   (0x1085, 0x1086); (0x108D, 0x108D); (0x109D, 0x109D); (0x10FC, 0x10FC);
   (0x135D, 0x135F); (0x1712, 0x1714); (0x1732, 0x1733); (0x1752, 0x1753);
   (0x1772, 0x1773); (0x17B4, 0x17B5); (0x17B7, 0x17BD); (0x17C6, 0x17C6);
   (0x17C9, 0x17D3); (0x17D7, 0x17D7); (0x17DD, 0x17DD); (0x180B, 0x180F);
   (0x1843, 0x1843); (0x1885, 0x1886); (0x18A9, 0x18A9); (0x1920, 0x1922);
   (0x1927, 0x1928); (0x1932, 0x1932); (0x1939, 0x193B); (0x1A17, 0x1A18);
   (0x1A1B, 0x1A1B); (0x1A56, 0x1A56); (0x1A58, 0x1A5E); (0x1A60, 0x1A60);
   (0x1A62, 0x1A62); (0x1A65, 0x1A6C); (0x1A73, 0x1A7C); (0x1A7F, 0x1A7F);
   (0x1AA7, 0x1AA7); (0x1AB0, 0x1ACE); (0x1B00, 0x1B03); (0x1B34, 0x1B34);
   (0x1B36, 0x1B3A); (0x1B3C, 0x1B3C); (0x1B42, 0x1B42); (0x1B6B, 0x1B73);
   (0x1B80, 0x1B81); (0x1BA2, 0x1BA5); (0x1BA8, 0x1BA9); (0x1BAB, 0x1BAD);
   (0x1BE6, 0x1BE6); (0x1BE8, 0x1BE9); (0x1BED, 0x1BED); (0x1BEF, 0x1BF1);
   (0x1C2C, 0x1C33); (0x1C36, 0x1C37); (0x1C78, 0x1C7D); (0x1CD0, 0x1CD2);
   (0x1CD4, 0x1CE0); (0x1CE2, 0x1CE8); (0x1CED, 0x1CED); (0x1CF4, 0x1CF4);
   (0x1CF8, 0x1CF9); (0x1D2C, 0x1D6A); (0x1D78, 0x1D78); (0x1D9B, 0x1DFF);
   (0x1FBD, 0x1FBD); (0x1FBF, 0x1FC1); (0x1FCD, 0x1FCF); (0x1FDD, 0x1FDF);
   (0x1FED, 0x1FEF); (0x1FFD, 0x1FFE); (0x200B, 0x200F); (0x2018, 0x2019);
   (0x2024, 0x2024); (0x2027, 0x2027); (0x202A, 0x202E); (0x2060, 0x2064);
   (0x2066, 0x206F); (0x2071, 0x2071); (0x207F, 0x207F); (0x2090, 0x209C);
   (0x20D0, 0x20F0); (0x2C7C, 0x2C7D); (0x2CEF, 0x2CF1); (0x2D6F, 0x2D6F);
   (0x2D7F, 0x2D7F); (0x2DE0, 0x2DFF); (0x2E2F, 0x2E2F); (0x3005, 0x3005);
   (0x302A, 0x302D); (0x3031, 0x3035); (0x303B, 0x303B); (0x3099, 0x309E);
   (0x30FC, 0x30FE); (0xA015, 0xA015); (0xA4F8, 0xA4FD); (0xA60C, 0xA60C);
   (0xA66F, 0xA672); (0xA674, 0xA67D); (0xA67F, 0xA67F); (0xA69C, 0xA69F);
   (0xA6F0, 0xA6F1); (0xA700, 0xA721); (0xA770, 0xA770); (0xA788, 0xA78A);
   (0xA7F2, 0xA7F4); (0xA7F8, 0xA7F9); (0xA802, 0xA802); (0xA806, 0xA806);
   (0xA80B, 0xA80B); (0xA825, 0xA826); (0xA82C, 0xA82C); (0xA8C4, 0xA8C5);
   (0xA8E0, 0xA8F1); (0xA8FF, 0xA8FF); (0xA926, 0xA92D); (0xA947, 0xA951);
   (0xA980, 0xA982); (0xA9B3, 0xA9B3); (0xA9B6, 0xA9B9); (0xA9BC, 0xA9BD);
   (0xA9CF, 0xA9CF); (0xA9E5, 0xA9E6); (0xAA29, 0xAA2E); (0xAA31, 0xAA32);
   (0xAA35, 0xAA36); (0xAA43, 0xAA43); (0xAA4C, 0xAA4C); (0xAA70, 0xAA70);
   (0xAA7C, 0xAA7C); (0xAAB0, 0xAAB0); (0xAAB2, 0xAAB4); (0xAAB7, 0xAAB8);
   (0xAABE, 0xAABF); (0xAAC1, 0xAAC1); (0xAADD, 0xAADD); (0xAAEC, 0xAAED);
   (0xAAF3, 0xAAF4); (0xAAF6, 0xAAF6); (0xAB5B, 0xAB5F); (0xAB69, 0xAB6B);
   (0xABE5, 0xABE5); (0xABE8, 0xABE8); (0xABED, 0xABED); (0xFB1E, 0xFB1E);
   (0xFBB2, 0xFBC2); (0xFE00, 0xFE0F); (0xFE13, 0xFE13); (0xFE20, 0xFE2F);
   (0xFE52, 0xFE52); (0xFE55, 0xFE55); (0xFEFF, 0xFEFF); (0xFF07, 0xFF07);
   (0xFF0E, 0xFF0E); (0xFF1A, 0xFF1A); (0xFF3E, 0xFF3E); (0xFF40, 0xFF40);
   (0xFF70, 0xFF70); (0xFF9E, 0xFF9F); (0xFFE3, 0xFFE3); (0xFFF9, 0xFFFB);
   (0x101FD, 0x101FD); (0x102E0, 0x102E0); (0x10376, 0x1037A); (0x10780, 0x10785);
   (0x10787, 0x107B0); (0x107B2, 0x107BA); (0x10A01, 0x10A03); (0x10A05, 0x10A06);
   (0x10A0C, 0x10A0F); (0x10A38, 0x10A3A); (0x10A3F, 0x10A3F); (0x10AE5, 0x10AE6);
   (0x10D24, 0x10D27); (0x10EAB, 0x10EAC); (0x10F46, 0x10F50); (0x10F82, 0x10F85);
   (0x11001, 0x11001); (0x11038, 0x11046); (0x11070, 0x11070); (0x11073, 0x11074);
   (0x1107F, 0x11081); (0x110B3, 0x110B6); (0x110B9, 0x110BA); (0x110BD, 0x110BD);
   (0x110C2, 0x110C2); (0x110CD, 0x110CD); (0x11100, 0x11102); (0x11127, 0x1112B);
   (0x1112D, 0x11134); (0x11173, 0x11173); (0x11180, 0x11181); (0x111B6, 0x111BE);
   (0x111C9, 0x111CC); (0x111CF, 0x111CF); (0x1122F, 0x11231); (0x11234, 0x11234);
   (0x11236, 0x11237); (0x1123E, 0x1123E); (0x112DF, 0x112DF); (0x112E3, 0x112EA);
   (0x11300, 0x11301); (0x1133B, 0x1133C); (0x11340, 0x11340); (0x11366, 0x1136C);
   (0x11370, 0x11374); (0x11438, 0x1143F); (0x11442, 0x11444); (0x11446, 0x11446);
   (0x1145E, 0x1145E); (0x114B3, 0x114B8); (0x114BA, 0x114BA); (0x114BF, 0x114C0);
   (0x114C2, 0x114C3); (0x115B2, 0x115B5); (0x115BC, 0x115BD); (0x115BF, 0x115C0);
   (0x115DC, 0x115DD); (0x11633, 0x1163A); (0x1163D, 0x1163D); (0x1163F, 0x11640);
   (0x116AB, 0x116AB); (0x116AD, 0x116AD); (0x116B0, 0x116B5); (0x116B7, 0x116B7);
   (0x1171D, 0x1171F); (0x11722, 0x11725); (0x11727, 0x1172B); (0x1182F, 0x11837);
   (0x11839, 0x1183A); (0x1193B, 0x1193C); (0x1193E, 0x1193E); (0x11943, 0x11943);
   (0x119D4, 0x119D7); (0x119DA, 0x119DB); (0x119E0, 0x119E0); (0x11A01, 0x11A0A);
   (0x11A33, 0x11A38); (0x11A3B, 0x11A3E); (0x11A47, 0x11A47); (0x11A51, 0x11A56);
   (0x11A59, 0x11A5B); (0x11A8A, 0x11A96); (0x11A98, 0x11A99); (0x11C30, 0x11C36);
   (0x11C38, 0x11C3D); (0x11C3F, 0x11C3F); (0x11C92, 0x11CA7); (0x11CAA, 0x11CB0);
   (0x11CB2, 0x11CB3); (0x11CB5, 0x11CB6); (0x11D31, 0x11D36); (0x11D3A, 0x11D3A);
   (0x11D3C, 0x11D3D); (0x11D3F, 0x11D45); (0x11D47, 0x11D47); (0x11D90, 0x11D91);
   (0x11D95, 0x11D95); (0x11D97, 0x11D97); (0x11EF3, 0x11EF4); (0x13430, 0x13438);
   (0x16AF0, 0x16AF4); (0x16B30, 0x16B36); (0x16B40, 0x16B43); (0x16F4F, 0x16F4F);
   (0x16F8F, 0x16F9F); (0x16FE0, 0x16FE1); (0x16FE3, 0x16FE4); (0x1AFF0, 0x1AFF3);
   (0x1AFF5, 0x1AFFB); (0x1AFFD, 0x1AFFE); (0x1BC9D, 0x1BC9E); (0x1BCA0, 0x1BCA3);
   (0x1CF00, 0x1CF2D); (0x1CF30, 0x1CF46); (0x1D167, 0x1D169); (0x1D173, 0x1D182);
   (0x1D185, 0x1D18B); (0x1D1AA, 0x1D1AD); (0x1D242, 0x1D244); (0x1DA00, 0x1DA36);
   (0x1DA3B, 0x1DA6C); (0x1DA75, 0x1DA75); (0x1DA84, 0x1DA84); (0x1DA9B, 0x1DA9F);
   (0x1DAA1, 0x1DAAF); (0x1E000, 0x1E006); (0x1E008, 0x1E018); (0x1E01B, 0x1E021);
   (0x1E023, 0x1E024); (0x1E026, 0x1E02A); (0x1E130, 0x1E13D); (0x1E2AE, 0x1E2AE);
   (0x1E2EC, 0x1E2EF); (0x1E8D0, 0x1E8D6); (0x1E944, 0x1E94B); (0x1F3FB, 0x1F3FF);
   (0xE0001, 0xE0001); (0xE0020, 0xE007F); (0xE0100, 0xE01EF)].

Fixpoint lower_simple (rs : list (Z * Z * Z * Z)) (c : Z) : Z :=
  match rs with
  | [] => c
  | (lo, hi, step, delta) :: rest =>
      if (lo <=? c) && (c <=? hi) && (Z.modulo (c - lo) step =? 0) then c + delta
      else lower_simple rest c
  end.

(** The first character that is not Case_Ignorable is Cased. *)
Fixpoint cased_after_ignorables (s : cstring) : bool :=
  match s with
  | [] => false
  | c :: r =>
      if in_ranges case_ignorable_ranges c then cased_after_ignorables r
      else in_ranges cased_ranges c
  end.

(** [before] is the text before the current position, nearest first. *)
Fixpoint lower_from (before s : cstring) : cstring :=
  match s with
  | [] => []
  | c :: r =>
      (if c =? 0x3A3 then
         (if cased_after_ignorables before && negb (cased_after_ignorables r)
          then [0x3C2] else [0x3C3])
       else if c =? 0x130 then [0x69; 0x307]
       else [lower_simple lower_runs c]) ++ lower_from (c :: before) r
  end.

Definition to_lower (s : cstring) : cstring := lower_from [] s.

Definition js_spaces : list Z :=
  [9; 10; 11; 12; 13; 32; 160; 5760; 8192; 8193; 8194; 8195; 8196; 8197; 8198;
   8199; 8200; 8201; 8202; 8232; 8233; 8239; 8287; 12288; 65279].

Lemma js_spaces_complete (c : Z) : is_js_space c = true -> In c js_spaces.
Proof.
  unfold is_js_space. intros E.
  repeat rewrite ?orb_true_iff, ?andb_true_iff, ?Z.leb_le, ?Z.eqb_eq in E.
  assert (Hr : forall lo n, lo <= c <= lo + Z.of_nat n ->
                 In c (map (fun k => lo + Z.of_nat k) (seq 0 (S n)))).
  { intros lo n Hc. apply in_map_iff. exists (Z.to_nat (c - lo)).
    split; [lia|]. apply in_seq. lia. }
  unfold js_spaces.
  destruct E as [[[[[[[[[[E|E]|E]|E]|E]|E]|E]|E]|E]|E]|E].
  - specialize (Hr 9 4%nat ltac:(lia)). cbn in Hr |- *. tauto.
  - subst c. cbn. tauto.
  - subst c. cbn. tauto.
  - subst c. cbn. tauto.
  - specialize (Hr 8192 10%nat ltac:(lia)). cbn in Hr |- *. tauto.
  - subst c. cbn. tauto.
  - subst c. cbn. tauto.
  - subst c. cbn. tauto.
  - subst c. cbn. tauto.
  - subst c. cbn. tauto.
  - subst c. cbn. tauto.
Qed.

Lemma white_space_in_no_script14 (c : Z) : is_js_space c = true ->
  in_ranges arabic_ranges c = false /\ in_ranges cyrillic_ranges c = false
  /\ in_ranges han_ranges c = false /\ in_ranges hiragana_ranges c = false
  /\ in_ranges katakana_ranges c = false /\ in_ranges hangul_ranges c = false.
Proof.
  intros E. apply js_spaces_complete in E.
  assert (Hall : forallb (fun c =>
            negb (in_ranges arabic_ranges c || in_ranges cyrillic_ranges c
                  || in_ranges han_ranges c || in_ranges hiragana_ranges c
                  || in_ranges katakana_ranges c || in_ranges hangul_ranges c))
            js_spaces = true) by (vm_compute; reflexivity).
  rewrite forallb_forall in Hall. specialize (Hall c E).
  repeat rewrite ?negb_orb, ?andb_true_iff, ?negb_true_iff in Hall. tauto.
Qed.

Definition unicode14 : UnicodeData := {|
  is_arabic := in_ranges arabic_ranges;
  is_cyrillic := in_ranges cyrillic_ranges;
  is_han := in_ranges han_ranges;
  is_hiragana := in_ranges hiragana_ranges;
  is_katakana := in_ranges katakana_ranges;
  is_hangul := in_ranges hangul_ranges;
  toLowerCase := to_lower;
  white_space_in_no_script := white_space_in_no_script14
|}.

End Unicode14.


(** ** Binary64 comparison facts *)
Module FloatFacts.
Local Open Scope float_scope.

Ltac cmp_split :=
  repeat match goal with
  | |- context [Z.compare ?a ?b] => destruct (Z.compare_spec a b)
  | |- context [Pos.compare_cont Eq ?a ?b] =>
      change (Pos.compare_cont Eq a b) with (Pos.compare a b);
      destruct (Pos.compare_spec a b)
  end; subst; simpl.

Lemma SFleb_trans (x y z : spec_float) :
  SFleb x y = true -> SFleb y z = true -> SFleb x z = true.
Proof.
  unfold SFleb.
  destruct x as [[]|[]| |[] m1 e1]; destruct y as [[]|[]| |[] m2 e2];
    destruct z as [[]|[]| |[] m3 e3]; simpl; try easy;
    cmp_split; try easy; try (exfalso; lia).
Qed.

Lemma leb_trans (a b c : float) :
  (a <=? b) = true -> (b <=? c) = true -> (a <=? c) = true.
Proof. rewrite !leb_spec. apply SFleb_trans. Qed.

End FloatFacts.

(** ** Recommendation engine *)
Module RecommendationProofs.
Import Text Recommendation FloatFacts.
Local Open Scope float_scope.

Lemma recommendedIndex_sph (s : float) (c a : option float) n b :
  recommendedIndex (recommendFromInputs (Some (mkPrescription (Some s) c a)) n b)
  = Some (cylinder_step (match c with Some v => v | None => 0 end)
            (index_of_power (max_power s (match c with Some v => v | None => 0 end)))).
Proof.
  unfold recommendFromInputs, cylinder_step, max_power.
  set (needs := match n with Some l => l | None => [] end).
  destruct (includes needs screen), (includes needs outdoor || includes needs driving);
    destruct c; cbn; repeat case_match; simplify_eq/=; done.
Qed.

Lemma index_of_power_cases (x : float) :
  index_of_power x = 1.5 \/ index_of_power x = 1.56 \/ index_of_power x = 1.6
  \/ index_of_power x = 1.67 \/ index_of_power x = 1.74.
Proof.
  unfold index_of_power.
  destruct (x <=? 2); [tauto|]; destruct (x <=? 3.5); [tauto|];
  destruct (x <=? 6); [tauto|]; destruct (x <=? 8); tauto.
Qed.

Ltac leb_chain :=
  repeat match goal with
  | H : (?a <=? ?b) = true, H2 : (?b <=? ?t) = true, H3 : (?a <=? ?t) = false |- _ =>
      exfalso; rewrite (leb_trans a b t H H2) in H3; discriminate
  | |- context [if ?x <=? ?t then _ else _] => destruct (x <=? t) eqn:?
  end.

Lemma index_of_power_mono (a b : float) :
  (a <=? b) = true -> (index_rank (index_of_power a) <= index_rank (index_of_power b))%nat.
Proof.
  intros H. unfold index_of_power. leb_chain; vm_compute; lia.
Qed.

(** C1 (as stated): on ["SPH -2.50 CYL -1.25 AXE 180"] the parser gives
    sph -2.5, cyl -1.25, axis 180, the principal powers are 2.5 and 3.75,
    and the recommended index is 1.56.  False: the index is 1.60. *)
Lemma C1_scenario_index_not_156 :
  ~ (parsePrescription (cps "SPH -2.50 CYL -1.25 AXE 180"%string)
       = Some (mkPrescription (Some (-2.5)) (Some (-1.25)) (Some 180))
     /\ principal_powers (-2.5) (-1.25) = (2.5, 3.75)
     /\ recommendedIndex
          (recommendFromInputs (parsePrescription (cps "SPH -2.50 CYL -1.25 AXE 180"%string))
             None None) = Some 1.56).
Proof.
  intros [_ [_ H]].
  apply (f_equal (fun o => match o with Some z => z =? 1.56 | None => false end)) in H.
  vm_compute in H. discriminate.
Qed.

(** C1 (amended): on ["SPH -2.50 CYL -1.25 AXE 180"] the parser gives
    [{sph: -2.5, cyl: -1.25, axis: 180}], the principal meridian powers are
    2.5 and 3.75, the maximum 3.75 exceeds the 3.5 step, and the
    recommendation engine (no needs) returns index 1.60. *)
Theorem C1_scenario_index_160 :
  parsePrescription (cps "SPH -2.50 CYL -1.25 AXE 180"%string)
    = Some (mkPrescription (Some (-2.5)) (Some (-1.25)) (Some 180))
  /\ principal_powers (-2.5) (-1.25) = (2.5, 3.75)
  /\ max_power (-2.5) (-1.25) = 3.75
  /\ recommendedIndex
       (recommendFromInputs (parsePrescription (cps "SPH -2.50 CYL -1.25 AXE 180"%string))
          None None) = Some 1.6.
Proof. vm_compute. repeat split; reflexivity. Qed.

(** C2 (as stated): for a fixed cyl, a larger |sph| never gives a lower
    index.  False: with cyl = -4, sph = 0 gives 1.74 and sph = 2 gives 1.60. *)
Lemma C2_sph_increase_lowers_index :
  ~ (forall (s s' : float) (c : option float) (i i' : float),
       (abs s <=? abs s') = true ->
       recommendedIndex (recommend_for s c) = Some i ->
       recommendedIndex (recommend_for s' c) = Some i' ->
       (i <=? i') = true).
Proof.
  intros H.
  specialize (H 0 2 (Some (-4)) 1.74 1.6
                ltac:(vm_compute; reflexivity) ltac:(vm_compute; reflexivity)
                ltac:(vm_compute; reflexivity)).
  vm_compute in H. discriminate.
Qed.

(** C2 (amended): for a fixed cyl, the chosen index (cylinder bump
    included) never decreases when the larger principal meridian power
    max(|sph|, |sph+cyl|) does not decrease. *)
Theorem C2_index_monotone_in_max_power (s s' c i i' : float) :
  (max_power s c <=? max_power s' c) = true ->
  recommendedIndex (recommend_for s (Some c)) = Some i ->
  recommendedIndex (recommend_for s' (Some c)) = Some i' ->
  (i <=? i') = true.
Proof.
  unfold recommend_for. rewrite !recommendedIndex_sph.
  intros Hle [= <-] [= <-].
  pose proof (index_of_power_mono _ _ Hle) as Hm.
  destruct (index_of_power_cases (max_power s c)) as [E|[E|[E|[E|E]]]];
  destruct (index_of_power_cases (max_power s' c)) as [E'|[E'|[E'|[E'|E']]]];
  rewrite E, E' in *; vm_compute in Hm; try lia;
  unfold cylinder_step; destruct (2 <=? abs c); vm_compute; reflexivity.
Qed.

Lemma C2_index_monotone_in_max_power_witness :
  (max_power 0 (-4) <=? max_power (-1) (-4)) = true
  /\ recommendedIndex (recommend_for 0 (Some (-4))) = Some 1.74
  /\ recommendedIndex (recommend_for (-1) (Some (-4))) = Some 1.74
  /\ (1.74 <=? 1.74) = true.
Proof.
  assert (H1 : (max_power 0 (-4) <=? max_power (-1) (-4)) = true) by (vm_compute; reflexivity).
  assert (H2 : recommendedIndex (recommend_for 0 (Some (-4))) = Some 1.74) by (vm_compute; reflexivity).
  assert (H3 : recommendedIndex (recommend_for (-1) (Some (-4))) = Some 1.74) by (vm_compute; reflexivity).
  split; [exact H1|]. split; [exact H2|]. split; [exact H3|].
  exact (C2_index_monotone_in_max_power 0 (-1) (-4) 1.74 1.74 H1 H2 H3).
Defined.

(** C3 (as stated): when |cyl| >= 2 the bumped index is at most one
    standard step above the unbumped one.  False: sph = 1, cyl = -2 gives
    the unbumped 1.50 and the bumped 1.60, two steps up. *)
Lemma C3_bump_skips_a_step :
  ~ (forall (s c i : float),
       (2 <=? abs c) = true ->
       recommendedIndex (recommend_for s (Some c)) = Some i ->
       (index_rank i <= S (index_rank (index_of_power (max_power s c))))%nat).
Proof.
  intros H.
  specialize (H 1 (-2) 1.6 ltac:(vm_compute; reflexivity) ltac:(vm_compute; reflexivity)).
  vm_compute in H. lia.
Qed.

(** C3 (amended): when |cyl| >= 2 and the index chosen from the power is
    1.50, 1.56, 1.67 or 1.74, it is bumped to the next standard index at or
    above index + 0.07, capped at 1.74, with the cylinder rationale note
    appended whenever this changes it: 1.50 -> 1.60, 1.56 -> 1.67,
    1.67 -> 1.74, 1.74 unchanged.  The bump never lowers the index and
    raises it by at most two steps. *)
Theorem C3_cylinder_bump_table (s c : float) :
  (2 <=? abs c) = true ->
  (index_of_power (max_power s c) =? 1.6) = false ->
  recommendedIndex (recommend_for s (Some c))
    = Some (cylinder_bump_table (index_of_power (max_power s c)))
  /\ rationale (recommend_for s (Some c))
     = [R_AR; R_HARD; R_HYDRO; R_maxPower (max_power s c)]
       ++ (if index_of_power (max_power s c) =? 1.74 then [] else [R_cylinder])
  /\ (index_rank (index_of_power (max_power s c))
      <= index_rank (cylinder_bump_table (index_of_power (max_power s c)))
      <= S (S (index_rank (index_of_power (max_power s c)))))%nat.
Proof.
  intros Hc H16.
  unfold recommend_for. rewrite recommendedIndex_sph.
  unfold recommendFromInputs, cylinder_step, max_power in H16 |- *.
  cbn -[index_of_power clampIndex] in H16 |- *.
  rewrite Hc.
  destruct (index_of_power_cases (js_max (abs s) (abs (s + c)))) as [E|[E|[E|[E|E]]]];
    rewrite E in H16 |- *; vm_compute in H16; try discriminate;
    vm_compute; repeat split; lia.
Qed.

Lemma C3_cylinder_bump_table_witness :
  (2 <=? abs (-2)) = true
  /\ (index_of_power (max_power 1 (-2)) =? 1.6) = false
  /\ recommendedIndex (recommend_for 1 (Some (-2)))
     = Some (cylinder_bump_table (index_of_power (max_power 1 (-2)))).
Proof.
  assert (H : (2 <=? abs (-2)) = true) by (vm_compute; reflexivity).
  assert (H16 : (index_of_power (max_power 1 (-2)) =? 1.6) = false)
    by (vm_compute; reflexivity).
  split; [exact H|split; [exact H16|]].
  exact (proj1 (C3_cylinder_bump_table 1 (-2) H H16)).
Defined.

(** C9: for every prescription and needs, the outputs with budget
    "basic" or "premium" have the same recommendedIndex, coatings,
    wantBlueCut and wantPhotochromic as the output without a budget;
    their rationale is that rationale with one budget note appended. *)
Theorem C9_budget_only_appends_rationale (p : option Prescription)
    (n : option (list VisualNeed)) :
  let r0 := recommendFromInputs p n None in
  let rb := recommendFromInputs p n (Some basic) in
  let rp := recommendFromInputs p n (Some premium) in
  recommendedIndex rb = recommendedIndex r0 /\ coatings rb = coatings r0
  /\ wantBlueCut rb = wantBlueCut r0 /\ wantPhotochromic rb = wantPhotochromic r0
  /\ rationale rb = rationale r0 ++ [R_budget_basic]
  /\ recommendedIndex rp = recommendedIndex r0 /\ coatings rp = coatings r0
  /\ wantBlueCut rp = wantBlueCut r0 /\ wantPhotochromic rp = wantPhotochromic r0
  /\ rationale rp = rationale r0 ++ [R_budget_premium].
Proof.
  unfold recommendFromInputs. cbn zeta.
  set (needs := match n with Some l => l | None => [] end).
  destruct (includes needs screen), (includes needs outdoor || includes needs driving);
    cbn; repeat case_match; simplify_eq/=; repeat split.
Qed.

End RecommendationProofs.

(** ** Language detector *)
Module LanguageProofs.
Import Text Scripts Language.
Local Open Scope Z_scope.

Section Generic.
Context {U : UnicodeData}.

Lemma arabic_not_space (c : Z) : is_arabic c = true -> is_js_space c = false.
Proof.
  intros Ha. destruct (is_js_space c) eqn:E; [|reflexivity].
  destruct (white_space_in_no_script c E) as [Hn _]. congruence.
Qed.

Lemma existsb_drop_spaces (P : Z -> bool) (s : cstring) :
  (forall c, P c = true -> is_js_space c = false) ->
  existsb P (drop_spaces s) = existsb P s.
Proof.
  intros HP. induction s as [|c r IH]; [reflexivity|]. simpl.
  destruct (is_js_space c) eqn:E; [|reflexivity].
  rewrite IH. destruct (P c) eqn:Pc; [|reflexivity].
  rewrite (HP c Pc) in E. discriminate.
Qed.

Lemma existsb_rev (P : Z -> bool) (s : cstring) : existsb P (rev s) = existsb P s.
Proof.
  induction s as [|c r IH]; [reflexivity|]. simpl.
  rewrite existsb_app, IH. simpl. rewrite orb_false_r, orb_comm. reflexivity.
Qed.

Lemma existsb_trim (P : Z -> bool) (s : cstring) :
  (forall c, P c = true -> is_js_space c = false) ->
  existsb P (trim s) = existsb P s.
Proof.
  intros HP. unfold trim.
  rewrite existsb_rev, existsb_drop_spaces, existsb_rev, existsb_drop_spaces; auto.
Qed.

Lemma drop_spaces_all (s : cstring) : forallb is_js_space s = true -> drop_spaces s = [].
Proof.
  induction s as [|c r IH]; [reflexivity|]. simpl.
  intros [Hc Hr]%andb_prop. rewrite Hc. auto.
Qed.

(** C8: for every text containing at least one Arabic-script code point,
    the detector returns language "ar" with confidence "high", whatever
    Latin-script content (Darija markers, French accents) it also holds. *)
Theorem C8_arabic_script_detected (text : cstring) :
  existsb is_arabic text = true ->
  detectLanguageInfo text = mkDetection ar high.
Proof.
  intros H. unfold detectLanguageInfo.
  rewrite <- (existsb_trim is_arabic text arabic_not_space) in H.
  destruct (trim text) as [|c r]; [discriminate|].
  rewrite H. reflexivity.
Qed.


(** C10: the detector is total and answers one of the four supported
    languages with a confidence; an empty or whitespace-only text gives
    language "fr" with confidence "low". *)
Theorem C10_detector_total_and_blank_default (text : cstring) :
  In (lang (detectLanguageInfo text)) [fr; en; ar; dz]
  /\ In (confidence (detectLanguageInfo text)) [high; medium; low]
  /\ (forallb is_js_space text = true -> detectLanguageInfo text = mkDetection fr low).
Proof.
  split; [destruct (lang _); simpl; tauto|].
  split; [destruct (confidence _); simpl; tauto|].
  intros H. unfold detectLanguageInfo, trim.
  rewrite (drop_spaces_all text H). reflexivity.
Qed.

End Generic.

#[local] Existing Instance Unicode14.unicode14.

Lemma C8_arabic_script_detected_witness :
  existsb is_arabic ([0x0647; 0x0644; 32] ++ cps "wesh khoya bonjour") = true
  /\ detectLanguageInfo ([0x0647; 0x0644; 32] ++ cps "wesh khoya bonjour")
     = mkDetection ar high.
Proof.
  assert (H : existsb is_arabic ([0x0647; 0x0644; 32] ++ cps "wesh khoya bonjour") = true)
    by (vm_compute; reflexivity).
  split; [exact H|]. exact (C8_arabic_script_detected _ H).
Defined.

Lemma C10_detector_total_and_blank_default_witness :
  forallb is_js_space [32; 9; 10; 0x3000] = true
  /\ detectLanguageInfo [32; 9; 10; 0x3000] = mkDetection fr low.
Proof.
  assert (H : forallb is_js_space [32; 9; 10; 0x3000] = true) by (vm_compute; reflexivity).
  split; [exact H|].
  exact (proj2 (proj2 (C10_detector_total_and_blank_default _)) H).
Defined.

End LanguageProofs.

(** ** Stream cleaning *)
Module StreamCleanProofs.
Import Text Scripts Language StreamClean.
Local Open Scope Z_scope.

Section Generic.
Context {U : UnicodeData}.

Lemma prefixb_snoc (pat s : cstring) (c : Z) :
  existsb (Z.eqb c) pat = false -> prefixb pat (s ++ [c]) = prefixb pat s.
Proof.
  revert s. induction pat as [|p ps IH]; intros s Hc; [reflexivity|].
  simpl in Hc. apply orb_false_iff in Hc as [Hcp Hps].
  destruct s as [|x r]; simpl.
  - rewrite Z.eqb_sym, Hcp. reflexivity.
  - rewrite IH by exact Hps. reflexivity.
Qed.

Lemma prefixb_length (pat s : cstring) :
  prefixb pat s = true -> (length pat <= length s)%nat.
Proof.
  revert s. induction pat as [|p ps IH]; intros [|x r] H; simpl in *; try lia.
  apply andb_prop in H as [_ H]. specialize (IH r H). lia.
Qed.

Lemma remove_lit_snoc (pat : cstring) (c : Z) :
  pat <> [] -> existsb (Z.eqb c) pat = false ->
  forall s k, (k <= length s)%nat -> remove_lit pat k (s ++ [c]) = remove_lit pat k s ++ [c].
Proof.
  intros Hne Hc s. induction s as [|x r IH]; intros k Hk.
  - destruct k; [|simpl in Hk; lia].
    destruct pat as [|p ps]; [congruence|].
    simpl in Hc |- *. apply orb_false_iff in Hc as [Hcp _].
    rewrite Z.eqb_sym, Hcp. reflexivity.
  - destruct k as [|k]; simpl.
    + pose proof (prefixb_snoc pat (x :: r) c Hc) as Hp. simpl in Hp. rewrite Hp.
      destruct (prefixb pat (x :: r)) eqn:E.
      * apply prefixb_length in E. simpl in E. apply IH. lia.
      * rewrite IH by lia. reflexivity.
    + apply IH. simpl in Hk. lia.
Qed.

Lemma remove_lit_cons (pat : cstring) (c : Z) (s : cstring) :
  pat <> [] -> existsb (Z.eqb c) pat = false ->
  remove_lit pat O (c :: s) = c :: remove_lit pat O s.
Proof.
  intros Hne Hc. destruct pat as [|p ps]; [congruence|].
  simpl in Hc |- *. apply orb_false_iff in Hc as [Hcp _].
  rewrite Z.eqb_sym, Hcp. reflexivity.
Qed.

Ltac nonempty_lit := let H := fresh in intro H; vm_compute in H; discriminate H.

Lemma sanitize_snoc (s : cstring) (c : Z) :
  is_blank c = true -> sanitizeAssistantChunk (s ++ [c]) = sanitizeAssistantChunk s ++ [c].
Proof.
  intros Hc. unfold is_blank in Hc. apply orb_true_iff in Hc.
  destruct Hc as [->%Z.eqb_eq | ->%Z.eqb_eq];
  unfold sanitizeAssistantChunk, replace_all_empty, remove_char;
  repeat (rewrite remove_lit_snoc; [| nonempty_lit | vm_compute; reflexivity | lia]);
  rewrite !List.filter_app; reflexivity.
Qed.

Lemma sanitize_cons (s : cstring) (c : Z) :
  is_blank c = true -> sanitizeAssistantChunk (c :: s) = c :: sanitizeAssistantChunk s.
Proof.
  intros Hc. unfold is_blank in Hc. apply orb_true_iff in Hc.
  destruct Hc as [->%Z.eqb_eq | ->%Z.eqb_eq];
  unfold sanitizeAssistantChunk, replace_all_empty, remove_char;
  repeat (rewrite remove_lit_cons; [| nonempty_lit | vm_compute; reflexivity]);
  reflexivity.
Qed.

Lemma space_not_filtered (c : Z) :
  is_js_space c = true -> is_arabic c = false /\ cjk_or_cyrillic c = false.
Proof.
  intros Hs. destruct (white_space_in_no_script c Hs) as (Ha & Hcy & Hh & Hhi & Hk & Hg).
  unfold cjk_or_cyrillic. rewrite Ha, Hcy, Hh, Hhi, Hk, Hg. split; reflexivity.
Qed.

Lemma blank_is_space (c : Z) : is_blank c = true -> is_js_space c = true.
Proof.
  unfold is_blank. intros Hc. apply orb_true_iff in Hc.
  destruct Hc as [->%Z.eqb_eq | ->%Z.eqb_eq]; reflexivity.
Qed.

Lemma filter_scripts_snoc (s : cstring) (c : Z) (l : SupportedLanguage) :
  is_blank c = true ->
  filterDisallowedScriptsByLanguage (s ++ [c]) l = filterDisallowedScriptsByLanguage s l ++ [c].
Proof.
  intros Hc. destruct (space_not_filtered c (blank_is_space c Hc)) as [Ha Hk].
  destruct l; cbn [filterDisallowedScriptsByLanguage]; rewrite List.filter_app;
    cbn [List.filter]; rewrite ?Ha, ?Hk; reflexivity.
Qed.

Lemma filter_scripts_cons (s : cstring) (c : Z) (l : SupportedLanguage) :
  is_blank c = true ->
  filterDisallowedScriptsByLanguage (c :: s) l = c :: filterDisallowedScriptsByLanguage s l.
Proof.
  intros Hc. destruct (space_not_filtered c (blank_is_space c Hc)) as [Ha Hk].
  destruct l; cbn [filterDisallowedScriptsByLanguage List.filter]; rewrite ?Ha, ?Hk; reflexivity.
Qed.

Lemma collapse_snoc_blank (s acc : cstring) (c : Z) :
  is_blank c = true ->
  exists o b, collapse_blank_runs acc (s ++ [c]) = o ++ [b] /\ is_blank b = true.
Proof.
  intros Hc. revert acc. induction s as [|x r IH]; intros acc; simpl.
  - rewrite Hc. destruct acc as [|a acc]; simpl.
    + exists [], c. auto.
    + exists [], 32. auto.
  - destruct (is_blank x); [apply IH|].
    destruct (IH []) as (o & b & E & Hb). rewrite E.
    exists (flush_blank_run acc ++ x :: o), b. split; [|exact Hb].
    rewrite <- app_assoc. reflexivity.
Qed.

Lemma drop_snoc_blank (s acc : cstring) (c : Z) :
  is_blank c = true ->
  exists o, drop_blanks_before_newline acc (s ++ [c]) = o ++ [c].
Proof.
  intros Hc. revert acc. induction s as [|x r IH]; intros acc; simpl.
  - rewrite Hc. exists (rev acc). reflexivity.
  - destruct (is_blank x); [apply IH|].
    destruct (IH []) as (o & E). rewrite E.
    destruct (x =? 10).
    + exists (10 :: o). reflexivity.
    + exists (rev acc ++ x :: o). rewrite <- app_assoc. reflexivity.
Qed.

Lemma cap_snoc (s : cstring) (k : nat) (c : Z) :
  c <> 10 -> exists o, cap_newline_runs k (s ++ [c]) = o ++ [c].
Proof.
  intros Hc. revert k. induction s as [|x r IH]; intros k; simpl.
  - rewrite (proj2 (Z.eqb_neq c 10) Hc). exists (flush_newlines k). reflexivity.
  - destruct (x =? 10); [apply IH|].
    destruct (IH O) as (o & E). rewrite E.
    exists (flush_newlines k ++ x :: o). rewrite <- app_assoc. reflexivity.
Qed.

Lemma collapse_starts_blank (s acc : cstring) :
  acc <> [] -> Forall (fun x => is_blank x = true) acc ->
  exists b o, collapse_blank_runs acc s = b :: o /\ is_blank b = true.
Proof.
  revert acc. induction s as [|x r IH]; intros acc Hne Hall; simpl.
  - destruct acc as [|a [|a' acc]]; [congruence| |].
    + exists a, []. inversion Hall; auto.
    + exists 32, []. auto.
  - destruct (is_blank x) eqn:Ex.
    + apply IH; [congruence|constructor; auto].
    + destruct acc as [|a [|a' acc]]; [congruence| |].
      * exists a, (x :: collapse_blank_runs [] r). inversion Hall; auto.
      * exists 32, (x :: collapse_blank_runs [] r). auto.
Qed.

Lemma drop_starts_ws (s acc : cstring) :
  acc <> [] -> Forall (fun x => is_blank x = true) acc ->
  exists b o, drop_blanks_before_newline acc s = b :: o
              /\ (is_blank b || (b =? 10)) = true.
Proof.
  revert acc. induction s as [|x r IH]; intros acc Hne Hall; simpl.
  - destruct (rev acc) as [|b o] eqn:E.
    + apply (f_equal (@rev Z)) in E. rewrite rev_involutive in E. simpl in E. congruence.
    + exists b, o. split; [reflexivity|].
      assert (Hb : In b (rev acc)) by (rewrite E; left; reflexivity).
      apply in_rev in Hb. rewrite List.Forall_forall in Hall. rewrite (Hall b Hb). reflexivity.
  - destruct (is_blank x) eqn:Ex.
    + apply IH; [congruence|constructor; auto].
    + destruct (x =? 10) eqn:Ex10.
      * exists 10, (drop_blanks_before_newline [] r). split; [reflexivity|].
        rewrite orb_true_iff. right. reflexivity.
      * destruct (rev acc) as [|b o] eqn:E.
        -- apply (f_equal (@rev Z)) in E. rewrite rev_involutive in E. simpl in E. congruence.
        -- exists b, (o ++ x :: drop_blanks_before_newline [] r). split; [reflexivity|].
           assert (Hb : In b (rev acc)) by (rewrite E; left; reflexivity).
           apply in_rev in Hb. rewrite List.Forall_forall in Hall. rewrite (Hall b Hb). reflexivity.
Qed.

Lemma cap_starts_newline (s : cstring) (k : nat) :
  (1 <= k)%nat -> exists o, cap_newline_runs k s = 10 :: o.
Proof.
  revert k. induction s as [|x r IH]; intros k Hk; simpl.
  - unfold flush_newlines. destruct (4 <=? k)%nat; [eexists; reflexivity|].
    destruct k as [|k]; [lia|]. eexists; reflexivity.
  - destruct (x =? 10); [apply IH; lia|].
    unfold flush_newlines. destruct (4 <=? k)%nat; [eexists; reflexivity|].
    destruct k as [|k]; [lia|]. eexists; reflexivity.
Qed.


(** C6 (amended): streaming cleaning removes the protocol tokens, NUL and
    CR characters and the disallowed scripts, then collapses every run of
    two or more spaces/tabs to one space, drops spaces/tabs before a
    newline and caps newline runs at three; it never trims: a fragment
    ending with a space or tab still ends with a space or tab, and one
    starting with a space or tab still starts with a space, tab or
    newline. *)
Theorem C6_chunk_keeps_boundary_whitespace (text : cstring) (l : SupportedLanguage) :
  ((exists o b, text = o ++ [b] /\ is_blank b = true) ->
   exists o' b', postProcessAssistantChunk text l = o' ++ [b'] /\ is_blank b' = true)
  /\ ((exists b o, text = b :: o /\ is_blank b = true) ->
      exists b' o', postProcessAssistantChunk text l = b' :: o'
                    /\ (is_blank b' || (b' =? 10)) = true).
Proof.
  split.
  - intros (o & b & -> & Hb).
    unfold postProcessAssistantChunk, normalizeWhitespaceAfterFiltering.
    rewrite sanitize_snoc, filter_scripts_snoc by exact Hb.
    destruct (collapse_snoc_blank (filterDisallowedScriptsByLanguage (sanitizeAssistantChunk o) l)
                [] b Hb) as (o1 & b1 & E1 & Hb1).
    rewrite E1.
    destruct (drop_snoc_blank o1 [] b1 Hb1) as (o2 & E2). rewrite E2.
    assert (Hn : b1 <> 10).
    { intros ->. discriminate Hb1. }
    destruct (cap_snoc o2 O b1 Hn) as (o3 & E3). rewrite E3.
    exists o3, b1. auto.
  - intros (b & o & -> & Hb).
    unfold postProcessAssistantChunk, normalizeWhitespaceAfterFiltering.
    rewrite sanitize_cons, filter_scripts_cons by exact Hb.
    simpl collapse_blank_runs. rewrite Hb.
    destruct (collapse_starts_blank (filterDisallowedScriptsByLanguage (sanitizeAssistantChunk o) l)
                [b] ltac:(congruence) ltac:(constructor; auto)) as (b1 & o1 & E1 & Hb1).
    rewrite E1. simpl drop_blanks_before_newline. rewrite Hb1.
    destruct (drop_starts_ws o1 [b1] ltac:(congruence) ltac:(constructor; auto))
      as (b2 & o2 & E2 & Hb2).
    rewrite E2. simpl cap_newline_runs.
    destruct (b2 =? 10) eqn:E10.
    + destruct (cap_starts_newline o2 1 ltac:(lia)) as (o3 & E3). rewrite E3.
      exists 10, o3. split; [reflexivity|]. rewrite orb_true_iff. right. reflexivity.
    + exists b2, (cap_newline_runs O o2). split; [reflexivity|]. rewrite E10. exact Hb2.
Qed.

End Generic.

#[local] Existing Instance Unicode14.unicode14.

(** C6 (as stated): streaming cleaning keeps a fragment's whitespace
    exactly as received, apart from removed tokens and characters.
    False: ["a  b"] (nothing to remove) is streamed as ["a b"]. *)
Lemma C6_chunk_whitespace_not_preserved :
  ~ (forall (text : cstring) (l : SupportedLanguage),
       sanitizeAssistantChunk text = text ->
       filterDisallowedScriptsByLanguage text l = text ->
       postProcessAssistantChunk text l = text).
Proof.
  intros H.
  specialize (H (cps "a  b") fr ltac:(vm_compute; reflexivity) ltac:(vm_compute; reflexivity)).
  vm_compute in H. discriminate.
Qed.

Lemma C6_chunk_keeps_boundary_whitespace_witness :
  exists o' b', postProcessAssistantChunk (cps "  a  b<|im_end|> ") fr = o' ++ [b']
                /\ is_blank b' = true.
Proof.
  apply (proj1 (C6_chunk_keeps_boundary_whitespace (cps "  a  b<|im_end|> ") fr)).
  exists (cps "  a  b<|im_end|>"), 32. split; [vm_compute; reflexivity | reflexivity].
Defined.

End StreamCleanProofs.

(* ------------------------------------------------------------------ *)
(** ** Message edit and delete routes *)
Module MessageRoutesProofs.
Import Text MessageRoutes.
Local Open Scope Z_scope.




End MessageRoutesProofs.

(* ------------------------------------------------------------------ *)
(** ** Provider history *)
Module ChatHistoryProofs.
Import Text ChatHistory.

(** A session whose [n]-th persisted message (oldest first) has the
    single code point [n] as its content; users and the assistant
    alternate, the user opening. *)
Definition numbered_session (n : nat) : list StoredMessage :=
  map (fun k => mkStored (if Nat.even k then "assistant" else "user")%string [Z.of_nat k])
      (seq 1 n).

(** C5: with 15 persisted user/assistant messages, the newest one (the
    user message of the current turn, number 15) is not sent to the
    provider: the history is messages 3 to 14, whereas the 12 most
    recent persisted messages are 4 to 15. *)
Theorem C5_history_drops_newest :
  map om_content (history (numbered_session 15))
    = map (fun k => [Z.of_nat k]) (seq 3 12)
  /\ map om_content (spec_history (numbered_session 15))
    = map (fun k => [Z.of_nat k]) (seq 4 12)
  /\ ~ In [15%Z] (map om_content (history (numbered_session 15))).
Proof.
  split; [vm_compute; reflexivity|]. split; [vm_compute; reflexivity|].
  vm_compute. intuition discriminate.
Qed.

(** Messages after the 14th oldest never reach the history. *)
Lemma history_ignores_after_14 (l r : list StoredMessage) :
  length l = 14%nat -> history (l ++ r) = history l.
Proof.
  intros H. unfold history, recent.
  rewrite firstn_app, H, Nat.sub_diag. simpl. rewrite app_nil_r.
  rewrite firstn_all2 by lia. reflexivity.
Qed.

End ChatHistoryProofs.

(* ------------------------------------------------------------------ *)
(** ** Memory effects of a turn *)
Module ChatMemoryProofs.
Import Language ChatMemory.

(** C7: a turn answered by the availability/quantity short-circuit
    leaves the memory store unchanged (no [lastLanguage] upsert), while
    a generative turn always upserts [("global", "lastLanguage")] with
    the turn's language. *)
Theorem C7_short_circuit_skips_memory (t : AvailabilityQuestionType)
    (lang : SupportedLanguage) (chatId : string) (prescriptionJson : option string)
    (mem : gmap (string * string) string) :
  turn_memory (Some t) lang chatId prescriptionJson mem = mem
  /\ turn_memory None lang chatId prescriptionJson mem !! ("global", "lastLanguage")%string
     = Some (lang_code lang).
Proof.
  split; [reflexivity|].
  unfold turn_memory, upsertMemory. destruct prescriptionJson as [v|].
  - rewrite lookup_insert_ne by (intros E; inversion E).
    apply lookup_insert_eq.
  - apply lookup_insert_eq.
Qed.

End ChatMemoryProofs.

(* ------------------------------------------------------------------ *)
(** ** Further properties of the recommendation engine and the parser *)
Module RecommendationFacts.
Import Text Recommendation.
Local Open Scope float_scope.

(** The coatings and the two wish flags depend on the stated needs only:
    always AR, HARD, HYDRO, then BLUECUT for a screen need, then PHOTO for
    an outdoor or driving need, whatever the prescription and budget. *)
Theorem coatings_follow_needs (p : option Prescription) (n : option (list VisualNeed))
    (b : option Budget) :
  let needs := match n with Some l => l | None => [] end in
  let r := recommendFromInputs p n b in
  coatings r = [AR; HARD; HYDRO]
               ++ (if includes needs screen then [BLUECUT] else [])
               ++ (if includes needs outdoor || includes needs driving then [PHOTO] else [])
  /\ wantBlueCut r = includes needs screen
  /\ wantPhotochromic r = (includes needs outdoor || includes needs driving).
Proof.
  cbv zeta. unfold recommendFromInputs.
  set (needs := match n with Some l => l | None => [] end).
  destruct (includes needs screen), (includes needs outdoor || includes needs driving);
    destruct p as [[s c a]|]; cbn; repeat case_match; simplify_eq/=; done.
Qed.

(** No index is recommended exactly when there is no prescription or the
    prescription has neither an sph nor a cyl value (an axis alone gives
    no index). *)
Theorem no_index_iff_no_power (p : option Prescription) (n : option (list VisualNeed))
    (b : option Budget) :
  recommendedIndex (recommendFromInputs p n b) = None
  <-> match p with None => True | Some pr => sph pr = None /\ cyl pr = None end.
Proof.
  unfold recommendFromInputs.
  set (needs := match n with Some l => l | None => [] end).
  destruct (includes needs screen), (includes needs outdoor || includes needs driving);
    destruct p as [[s c a]|]; cbn; try tauto;
    destruct s, c; cbn; repeat case_match; simplify_eq/=; split; intros H;
    try discriminate; try tauto; try (destruct H; discriminate).
Qed.

Lemma clampIndex_standard (x : float) :
  In (clampIndex x) [1.5; 1.56; 1.6; 1.67; 1.74].
Proof.
  unfold clampIndex. simpl.
  destruct (x <=? 1.5); [tauto|]; destruct (x <=? 1.56); [tauto|];
  destruct (x <=? 1.6); [tauto|]; destruct (x <=? 1.67); tauto.
Qed.

Lemma index_of_power_standard (x : float) :
  In (index_of_power x) [1.5; 1.56; 1.6; 1.67; 1.74].
Proof.
  unfold index_of_power. simpl.
  destruct (x <=? 2); [tauto|]; destruct (x <=? 3.5); [tauto|];
  destruct (x <=? 6); [tauto|]; destruct (x <=? 8); tauto.
Qed.

(** Whatever the prescription (any binary64 values, NaN and infinities
    included), a recommended index is one of the five standard values. *)
Theorem recommended_index_standard (p : option Prescription)
    (n : option (list VisualNeed)) (b : option Budget) (x : float) :
  recommendedIndex (recommendFromInputs p n b) = Some x ->
  In x [1.5; 1.56; 1.6; 1.67; 1.74].
Proof.
  unfold recommendFromInputs.
  set (needs := match n with Some l => l | None => [] end).
  destruct (includes needs screen), (includes needs outdoor || includes needs driving);
    destruct p as [[s c a]|]; cbn; try discriminate;
    destruct s, c; cbn; try discriminate; repeat case_match; simplify_eq/=; intros [= <-];
    first [apply clampIndex_standard | apply index_of_power_standard].
Qed.

Lemma recommended_index_standard_witness :
  recommendedIndex (recommend_for (-9) (Some (-3))) = Some 1.74
  /\ In 1.74 [1.5; 1.56; 1.6; 1.67; 1.74].
Proof.
  assert (H : recommendedIndex (recommend_for (-9) (Some (-3))) = Some 1.74)
    by (vm_compute; reflexivity).
  split; [exact H|]. exact (recommended_index_standard _ _ _ _ H).
Defined.

Lemma commas_to_dots_idem (s : cstring) :
  commas_to_dots (commas_to_dots s) = commas_to_dots s.
Proof.
  unfold commas_to_dots. rewrite map_map. apply map_ext. intros c.
  destruct (Z.eqb_spec c 44) as [->|H]; [reflexivity|].
  destruct (Z.eqb_spec c 44); [contradiction|reflexivity].
Qed.

Lemma collapse_spaces_aux_idem (b : bool) (s : cstring) :
  collapse_spaces_aux b (collapse_spaces_aux b s) = collapse_spaces_aux b s.
Proof.
  revert b. induction s as [|c r IH]; intros b; [reflexivity|]. simpl.
  destruct (is_js_space c) eqn:Hc.
  - destruct b; [apply IH|]. simpl. rewrite IH. reflexivity.
  - simpl. rewrite Hc, IH. reflexivity.
Qed.

Lemma commas_collapse_comm (b : bool) (s : cstring) :
  commas_to_dots (collapse_spaces_aux b s) = collapse_spaces_aux b (commas_to_dots s).
Proof.
  revert b. induction s as [|c r IH]; intros b; [reflexivity|]. simpl.
  assert (Hsp : is_js_space (if c =? 44 then 46 else c)%Z = is_js_space c).
  { destruct (Z.eqb_spec c 44) as [->|]; reflexivity. }
  rewrite Hsp. destruct (is_js_space c).
  - destruct b; simpl; rewrite IH; reflexivity.
  - simpl. rewrite IH. reflexivity.
Qed.

(** The parser reads decimal commas as points and any run of whitespace
    as one space: replacing every comma by a point, or collapsing every
    whitespace run to a single space, never changes its result. *)
Theorem parse_ignores_commas_and_spacing (text : cstring) :
  parsePrescription (commas_to_dots text) = parsePrescription text
  /\ parsePrescription (collapse_spaces text) = parsePrescription text.
Proof.
  unfold parsePrescription, collapse_spaces. split.
  - rewrite commas_to_dots_idem. reflexivity.
  - rewrite <- commas_collapse_comm, collapse_spaces_aux_idem, commas_collapse_comm.
    reflexivity.
Qed.

End RecommendationFacts.

(* ------------------------------------------------------------------ *)
(** ** [String.prototype.trim] and the detector *)
Module DetectorFacts.
Import Text Scripts Language LanguageProofs.
Local Open Scope Z_scope.

Section Generic.
Context {U : UnicodeData}.

Lemma forallb_rev_spaces (s : cstring) :
  forallb is_js_space (rev s) = forallb is_js_space s.
Proof.
  induction s as [|c r IH]; [reflexivity|]. simpl.
  rewrite forallb_app, IH. simpl. rewrite andb_true_r, andb_comm. reflexivity.
Qed.

Lemma drop_spaces_app_l (ws s : cstring) :
  forallb is_js_space ws = true -> drop_spaces (ws ++ s) = drop_spaces s.
Proof.
  induction ws as [|c r IH]; [reflexivity|]. simpl.
  intros [Hc Hr]%andb_prop. rewrite Hc. auto.
Qed.

Lemma drop_spaces_app_r (s ws : cstring) :
  drop_spaces (s ++ ws) = match drop_spaces s with [] => drop_spaces ws | d => d ++ ws end.
Proof.
  induction s as [|c r IH]; [reflexivity|]. simpl.
  destruct (is_js_space c); [exact IH|reflexivity].
Qed.

Lemma trim_app_spaces (ws1 s ws2 : cstring) :
  forallb is_js_space ws1 = true -> forallb is_js_space ws2 = true ->
  trim (ws1 ++ s ++ ws2) = trim s.
Proof.
  intros H1 H2. unfold trim.
  rewrite drop_spaces_app_l by exact H1. rewrite drop_spaces_app_r.
  destruct (drop_spaces s) as [|d ds] eqn:E.
  - rewrite (drop_spaces_all ws2 H2). reflexivity.
  - rewrite rev_app_distr, drop_spaces_app_l by (rewrite forallb_rev_spaces; exact H2).
    reflexivity.
Qed.

(** Whitespace around a message never changes its detection: the
    detector sees the trimmed text only. *)
Theorem detection_ignores_surrounding_space (ws1 text ws2 : cstring) :
  forallb is_js_space ws1 = true -> forallb is_js_space ws2 = true ->
  detectLanguageInfo (ws1 ++ text ++ ws2) = detectLanguageInfo text.
Proof.
  intros H1 H2. unfold detectLanguageInfo. rewrite trim_app_spaces by assumption.
  reflexivity.
Qed.


(** A "low" confidence is only ever given with language "fr" (ties and
    texts without hints default to French); "en" is returned only when
    the English hint words outnumber the French ones. *)
Theorem low_confidence_is_french (text : cstring) :
  (confidence (detectLanguageInfo text) = low -> lang (detectLanguageInfo text) = fr)
  /\ (lang (detectLanguageInfo text) = en ->
      (countWordHits (toLowerCase (trim text)) FRENCH_HINT_WORDS
       < countWordHits (toLowerCase (trim text)) ENGLISH_HINT_WORDS)%nat).
Proof.
  unfold detectLanguageInfo.
  destruct (trim text) as [|c r]; [split; [reflexivity|discriminate]|].
  destruct (existsb is_arabic (c :: r)); [split; discriminate|].
  destruct (existsb (includes (toLowerCase (c :: r))) DARJA_HINTS); [split; discriminate|].
  destruct (existsb is_french_accent (c :: r)); [split; [discriminate|discriminate]|].
  set (f := countWordHits (toLowerCase (c :: r)) FRENCH_HINT_WORDS).
  set (e := countWordHits (toLowerCase (c :: r)) ENGLISH_HINT_WORDS).
  destruct ((f =? 0)%nat && (e =? 0)%nat); [split; [reflexivity|discriminate]|].
  destruct (Nat.leb_spec e f) as [Hle|Hlt].
  - split; [reflexivity|]. destruct (3 <=? f - e)%nat, (1 <=? f - e)%nat; discriminate.
  - split; [|intros _; exact Hlt].
    destruct (Nat.leb_spec 3 (e - f)); [discriminate|].
    destruct (Nat.leb_spec 1 (e - f)); [discriminate|lia].
Qed.

End Generic.

#[local] Existing Instance Unicode14.unicode14.

Lemma detection_ignores_surrounding_space_witness :
  forallb is_js_space [32; 10] = true /\ forallb is_js_space [9] = true
  /\ detectLanguageInfo ([32; 10] ++ cps "hello" ++ [9]) = detectLanguageInfo (cps "hello").
Proof.
  assert (H1 : forallb is_js_space [32; 10] = true) by reflexivity.
  assert (H2 : forallb is_js_space [9] = true) by reflexivity.
  split; [exact H1|]. split; [exact H2|].
  exact (detection_ignores_surrounding_space _ _ _ H1 H2).
Defined.

(** The Kelvin sign U+212A lowers to [k]: ["than\u212As"] reads as [thanks]. *)
Lemma low_confidence_is_french_witness :
  let t := cps "than" ++ [0x212A] ++ cps "s" in
  lang (detectLanguageInfo t) = en
  /\ (countWordHits (toLowerCase (trim t)) FRENCH_HINT_WORDS
      < countWordHits (toLowerCase (trim t)) ENGLISH_HINT_WORDS)%nat.
Proof.
  cbv zeta.
  assert (H : lang (detectLanguageInfo (cps "than" ++ [0x212A] ++ cps "s")) = en)
    by (vm_compute; reflexivity).
  split; [exact H|exact (proj2 (low_confidence_is_french _) H)].
Defined.

End DetectorFacts.

(* ------------------------------------------------------------------ *)
(** ** Characters and whitespace shape of the cleaned answer *)
Module StreamFacts.
Import Text Scripts Language StreamClean.
Local Open Scope Z_scope.

Section Generic.
Context {U : UnicodeData}.

Lemma in_remove_char (x c : Z) (s : cstring) :
  In c (remove_char x s) -> c <> x /\ In c s.
Proof.
  unfold remove_char. rewrite List.filter_In. intros [H1 H2].
  split; [|exact H1]. intros ->. rewrite Z.eqb_refl in H2. discriminate.
Qed.

Lemma in_remove_lit (p : cstring) (k : nat) (c : Z) (s : cstring) :
  In c (remove_lit p k s) -> In c s.
Proof.
  revert k. induction s as [|x r IH]; intros k; simpl; [tauto|].
  destruct k as [|k].
  - destruct (prefixb p (x :: r)).
    + intros H. right. exact (IH _ H).
    + intros [->|H]; [left; reflexivity|right; exact (IH _ H)].
  - intros H. right. exact (IH _ H).
Qed.

Lemma in_sanitize (c : Z) (s : cstring) :
  In c (sanitizeAssistantChunk s) -> c <> 0 /\ c <> 13 /\ In c s.
Proof.
  unfold sanitizeAssistantChunk, replace_all_empty.
  intros H. apply in_remove_char in H as [H13 H].
  apply in_remove_char in H as [H0 H].
  repeat apply in_remove_lit in H. auto.
Qed.

Lemma in_filter_scripts (c : Z) (s : cstring) (l : SupportedLanguage) :
  In c (filterDisallowedScriptsByLanguage s l) ->
  In c s /\ cjk_or_cyrillic c = false /\ ((l = fr \/ l = en) -> is_arabic c = false).
Proof.
  unfold filterDisallowedScriptsByLanguage.
  destruct l; rewrite List.filter_In; intros [Hin Hc]; split; auto;
    [ apply negb_true_iff, orb_false_iff in Hc as [Ha Hk]; auto
    | apply negb_true_iff, orb_false_iff in Hc as [Ha Hk]; auto
    | apply negb_true_iff in Hc; split; [exact Hc|intros [E|E]; discriminate]
    | apply negb_true_iff in Hc; split; [exact Hc|intros [E|E]; discriminate] ].
Qed.

Lemma in_flush_blank_run (c : Z) (acc : cstring) :
  In c (flush_blank_run acc) -> In c acc \/ c = 32.
Proof.
  destruct acc as [|x [|y acc]]; simpl; intuition.
Qed.

Lemma in_collapse (c : Z) (acc s : cstring) :
  In c (collapse_blank_runs acc s) -> In c acc \/ In c s \/ c = 32.
Proof.
  revert acc. induction s as [|x r IH]; intros acc; simpl.
  - intros H. destruct (in_flush_blank_run c acc H); auto.
  - destruct (is_blank x).
    + intros H. destruct (IH _ H) as [[->|H1]|[H1|H1]]; auto.
    + rewrite in_app_iff. intros [H|[->|H]].
      * destruct (in_flush_blank_run c acc H); auto.
      * auto.
      * destruct (IH _ H) as [[]|[H1|H1]]; auto.
Qed.

Lemma in_drop (c : Z) (acc s : cstring) :
  In c (drop_blanks_before_newline acc s) -> In c acc \/ In c s.
Proof.
  revert acc. induction s as [|x r IH]; intros acc; simpl.
  - rewrite <- in_rev. auto.
  - destruct (is_blank x); [|destruct (Z.eqb_spec x 10)].
    + intros H. destruct (IH _ H) as [[->|H1]|H1]; auto.
    + intros [<-|H]; [subst; auto|]. destruct (IH _ H) as [[]|H1]; auto.
    + rewrite in_app_iff, <- in_rev. intros [H|[->|H]]; auto.
      destruct (IH _ H) as [[]|H1]; auto.
Qed.

Lemma in_flush_newlines (c : Z) (k : nat) : In c (flush_newlines k) -> c = 10.
Proof.
  unfold flush_newlines. destruct (4 <=? k)%nat.
  - simpl. intuition.
  - apply repeat_spec.
Qed.

Lemma in_cap (c : Z) (k : nat) (s : cstring) :
  In c (cap_newline_runs k s) -> In c s \/ c = 10.
Proof.
  revert k. induction s as [|x r IH]; intros k; simpl.
  - intros H. right. exact (in_flush_newlines c k H).
  - destruct (x =? 10).
    + intros H. destruct (IH _ H); auto.
    + rewrite in_app_iff. intros [H|[->|H]].
      * right. exact (in_flush_newlines c k H).
      * auto.
      * destruct (IH _ H); auto.
Qed.

Lemma in_normalize (c : Z) (s : cstring) :
  In c (normalizeWhitespaceAfterFiltering s) -> In c s \/ c = 32 \/ c = 10.
Proof.
  unfold normalizeWhitespaceAfterFiltering. intros H.
  destruct (in_cap _ _ _ H) as [H1|H1]; [|auto].
  destruct (in_drop _ _ _ H1) as [[]|H2].
  destruct (in_collapse _ _ _ H2) as [[]|[H3|H3]]; auto.
Qed.

Lemma in_drop_spaces (c : Z) (s : cstring) : In c (drop_spaces s) -> In c s.
Proof.
  induction s as [|x r IH]; simpl; [tauto|].
  destruct (is_js_space x); [auto|]. tauto.
Qed.

Lemma in_trim (c : Z) (s : cstring) : In c (trim s) -> In c s.
Proof.
  unfold trim. rewrite <- in_rev. intros H.
  apply in_drop_spaces in H. rewrite <- in_rev in H. exact (in_drop_spaces _ _ H).
Qed.

(** Every character of a cleaned answer, streamed fragment or final
    text, is neither NUL nor CR nor a Cyrillic, Han, Hiragana, Katakana
    or Hangul character; for French and English it is not Arabic either. *)
Theorem cleaned_output_characters (text : cstring) (l : SupportedLanguage) (c : Z) :
  In c (postProcessAssistantChunk text l) \/ In c (postProcessAssistantText text l) ->
  c <> 0 /\ c <> 13 /\ cjk_or_cyrillic c = false
  /\ ((l = fr \/ l = en) -> is_arabic c = false).
Proof.
  unfold postProcessAssistantChunk, postProcessAssistantText.
  intros H. assert (H' : In c (normalizeWhitespaceAfterFiltering
                            (filterDisallowedScriptsByLanguage (sanitizeAssistantChunk text) l))).
  { destruct H as [H|H]; [exact H|exact (in_trim _ _ H)]. }
  destruct (in_normalize _ _ H') as [H1|[E|E]]; [|subst c..].
  - apply in_filter_scripts in H1 as (H2 & Hk & Ha).
    apply in_sanitize in H2 as (H0 & H13 & _). auto.
  - destruct (white_space_in_no_script 32 eq_refl) as (Ha & Hcy & Hh & Hhi & Hk & Hg).
    unfold cjk_or_cyrillic. rewrite Ha, Hcy, Hh, Hhi, Hk, Hg.
    repeat split; try discriminate; intros _; reflexivity.
  - destruct (white_space_in_no_script 10 eq_refl) as (Ha & Hcy & Hh & Hhi & Hk & Hg).
    unfold cjk_or_cyrillic. rewrite Ha, Hcy, Hh, Hhi, Hk, Hg.
    repeat split; try discriminate; intros _; reflexivity.
Qed.

End Generic.

#[local] Existing Instance Unicode14.unicode14.

(** U+1EE04 is unassigned in Unicode 14.0, so it is no Arabic letter
    there and a French answer keeps it. *)
Lemma cleaned_output_characters_witness :
  In 0x1EE04 (postProcessAssistantChunk (cps "a" ++ [0x1EE04] ++ cps "<|im_end|>") fr)
  /\ 0x1EE04 <> 0 /\ 0x1EE04 <> 13 /\ cjk_or_cyrillic 0x1EE04 = false
  /\ ((fr = fr \/ fr = en) -> is_arabic 0x1EE04 = false).
Proof.
  assert (H : In 0x1EE04 (postProcessAssistantChunk (cps "a" ++ [0x1EE04] ++ cps "<|im_end|>") fr)).
  { vm_compute. right. left. reflexivity. }
  split; [exact H|]. exact (cleaned_output_characters _ fr 0x1EE04 (or_introl H)).
Defined.

(** The three shapes [normalizeWhitespaceAfterFiltering] removes. *)
Fixpoint no_double_blank (s : cstring) : bool :=
  match s with
  | [] => true
  | a :: r => negb (is_blank a && match r with b :: _ => is_blank b | [] => false end)
              && no_double_blank r
  end.

Fixpoint no_blank_newline (s : cstring) : bool :=
  match s with
  | [] => true
  | a :: r => negb (is_blank a && match r with b :: _ => b =? 10 | [] => false end)
              && no_blank_newline r
  end.

Fixpoint no_four_newlines (s : cstring) : bool :=
  match s with
  | [] => true
  | _ :: r => negb (prefixb [10; 10; 10; 10] s) && no_four_newlines r
  end.

Lemma no_double_blank_app (l m : cstring) (c : Z) :
  no_double_blank (l ++ c :: m) = no_double_blank (l ++ [c]) && no_double_blank (c :: m).
Proof.
  induction l as [|a l IH]; simpl.
  - destruct (is_blank c); simpl; [|reflexivity].
    destruct m; simpl; rewrite ?andb_true_r; reflexivity.
  - rewrite IH, andb_assoc. f_equal. f_equal.
    destruct l; reflexivity.
Qed.

Lemma no_blank_newline_app (l m : cstring) (c : Z) :
  no_blank_newline (l ++ c :: m) = no_blank_newline (l ++ [c]) && no_blank_newline (c :: m).
Proof.
  induction l as [|a l IH]; simpl.
  - destruct (is_blank c); simpl; [|reflexivity].
    destruct m; simpl; rewrite ?andb_true_r; reflexivity.
  - rewrite IH, andb_assoc. f_equal. f_equal.
    destruct l; reflexivity.
Qed.

Lemma flush_newlines_repeat (k : nat) :
  flush_newlines k = repeat 10 (Nat.min k 3).
Proof.
  unfold flush_newlines. destruct (Nat.leb_spec 4 k).
  - rewrite Nat.min_r by lia. reflexivity.
  - rewrite Nat.min_l by lia. reflexivity.
Qed.

Lemma repeat_newlines_shapes (j : nat) (m : cstring) :
  no_double_blank (repeat 10 j ++ m) = no_double_blank m
  /\ no_blank_newline (repeat 10 j ++ m) = no_blank_newline m.
Proof.
  induction j as [|j [IH1 IH2]]; simpl; [auto|]. rewrite IH1, IH2. auto.
Qed.

Lemma no_four_repeat (j : nat) (c : Z) (m : cstring) :
  (j <= 3)%nat -> c <> 10 ->
  no_four_newlines (repeat 10 j ++ c :: m) = no_four_newlines m.
Proof.
  intros Hj Hc. apply Z.eqb_neq in Hc.
  destruct j as [|[|[|[|j]]]]; [..|lia]; cbn [repeat app no_four_newlines prefixb];
    rewrite ?Z.eqb_refl, ?(Z.eqb_sym 10 c), ?Hc; reflexivity.
Qed.

Lemma no_four_repeat_end (j : nat) : (j <= 3)%nat -> no_four_newlines (repeat 10 j) = true.
Proof. intros Hj. destruct j as [|[|[|[|j]]]]; [reflexivity..|lia]. Qed.

(** Shapes of each step's output. *)
Lemma collapse_no_double_blank (acc s : cstring) :
  no_double_blank (collapse_blank_runs acc s) = true.
Proof.
  revert acc. induction s as [|x r IH]; intros acc; simpl.
  - destruct acc as [|a [|b acc]]; simpl; rewrite ?andb_false_r; reflexivity.
  - destruct (is_blank x) eqn:Hx; [apply IH|].
    assert (Hxr : no_double_blank (x :: collapse_blank_runs [] r) = true)
      by (simpl; rewrite Hx; simpl; apply IH).
    destruct acc as [|a [|b acc]]; cbn [flush_blank_run app]; [exact Hxr| |].
    + change (negb (is_blank a && is_blank x)
              && no_double_blank (x :: collapse_blank_runs [] r) = true).
      rewrite Hx, andb_false_r. exact Hxr.
    + change (negb (is_blank 32 && is_blank x)
              && no_double_blank (x :: collapse_blank_runs [] r) = true).
      rewrite Hx, andb_false_r. exact Hxr.
Qed.

Lemma forallb_rev_Z (f : Z -> bool) (l : cstring) : forallb f (rev l) = forallb f l.
Proof.
  induction l as [|a l IH]; [reflexivity|]. simpl.
  rewrite forallb_app, IH. simpl. rewrite andb_true_r, andb_comm. reflexivity.
Qed.

Lemma blanks_no_blank_newline (l : cstring) :
  forallb is_blank l = true -> no_blank_newline l = true.
Proof.
  induction l as [|a l IH]; [reflexivity|]. cbn [forallb]. intros [Ha Hl]%andb_prop.
  change (negb (is_blank a && match l with b :: _ => b =? 10 | [] => false end)
          && no_blank_newline l = true).
  rewrite (IH Hl), andb_true_r. destruct l as [|b l]; [rewrite andb_false_r; reflexivity|].
  cbn [forallb] in Hl. apply andb_prop in Hl as [Hb _].
  destruct (Z.eqb_spec b 10) as [E|E]; [subst b; discriminate|].
  rewrite andb_false_r. reflexivity.
Qed.

Lemma blanks_then_other (l : cstring) (x : Z) :
  forallb is_blank l = true -> x <> 10 -> no_blank_newline (l ++ [x]) = true.
Proof.
  intros Hl Hx. apply Z.eqb_neq in Hx. induction l as [|a l IH].
  - change (negb (is_blank x && false) && true = true). rewrite andb_false_r. reflexivity.
  - cbn [forallb] in Hl. apply andb_prop in Hl as [Ha Hl].
    change (negb (is_blank a && match l ++ [x] with b :: _ => b =? 10 | [] => false end)
            && no_blank_newline (l ++ [x]) = true).
    rewrite (IH Hl), andb_true_r. destruct l as [|b l]; cbn [app].
    + rewrite Hx, andb_false_r. reflexivity.
    + cbn [forallb] in Hl. apply andb_prop in Hl as [Hb _].
      destruct (Z.eqb_spec b 10) as [E|E]; [subst b; discriminate|].
      rewrite andb_false_r. reflexivity.
Qed.

Lemma drop_shapes (acc s : cstring) :
  forallb is_blank acc = true -> no_double_blank (rev acc ++ s) = true ->
  no_double_blank (drop_blanks_before_newline acc s) = true
  /\ no_blank_newline (drop_blanks_before_newline acc s) = true.
Proof.
  revert acc. induction s as [|x r IH]; intros acc Hacc Hnd; cbn [drop_blanks_before_newline].
  - rewrite app_nil_r in Hnd. split; [exact Hnd|].
    apply blanks_no_blank_newline. rewrite forallb_rev_Z. exact Hacc.
  - rewrite no_double_blank_app in Hnd. apply andb_prop in Hnd as [Hpre Hr].
    assert (Hr' : no_double_blank r = true).
    { cbn [no_double_blank] in Hr. apply andb_prop in Hr. tauto. }
    destruct (is_blank x) eqn:Hx; [|destruct (Z.eqb_spec x 10) as [E|Hx10]].
    + apply IH; [cbn [forallb]; rewrite Hx, Hacc; reflexivity|].
      cbn [rev]. rewrite <- app_assoc. cbn [app].
      rewrite no_double_blank_app, Hpre. exact Hr.
    + subst x. exact (IH [] eq_refl Hr').
    + destruct (IH [] eq_refl Hr') as [H1 H2].
      rewrite no_double_blank_app, no_blank_newline_app, Hpre.
      rewrite blanks_then_other by (rewrite ?forallb_rev_Z; assumption).
      cbn [no_double_blank no_blank_newline]. rewrite Hx, H1, H2. split; reflexivity.
Qed.

Lemma repeat_S_app (k : nat) (a : Z) (r : cstring) :
  repeat a (S k) ++ r = repeat a k ++ a :: r.
Proof. induction k as [|k IH]; [reflexivity|]. simpl in *. rewrite IH. reflexivity. Qed.

Lemma cap_head_cons (y : Z) (r : cstring) :
  exists o, cap_newline_runs 0 (y :: r) = y :: o.
Proof.
  cbn [cap_newline_runs]. destruct (Z.eqb_spec y 10) as [->|_].
  - exact (StreamCleanProofs.cap_starts_newline r 1 (le_n 1)).
  - eexists. reflexivity.
Qed.

Lemma cap_shapes (s : cstring) (k : nat) :
  no_double_blank (repeat 10 k ++ s) = true -> no_blank_newline (repeat 10 k ++ s) = true ->
  no_double_blank (cap_newline_runs k s) = true
  /\ no_blank_newline (cap_newline_runs k s) = true
  /\ no_four_newlines (cap_newline_runs k s) = true.
Proof.
  revert k. induction s as [|x r IH]; intros k Hnd Hnb; cbn [cap_newline_runs].
  - rewrite flush_newlines_repeat.
    destruct (repeat_newlines_shapes (Nat.min k 3) []) as [E1 E2].
    rewrite app_nil_r in E1, E2. rewrite E1, E2.
    split; [reflexivity|]. split; [reflexivity|]. apply no_four_repeat_end. lia.
  - destruct (Z.eqb_spec x 10) as [->|Hx10].
    + apply IH; rewrite repeat_S_app; assumption.
    + rewrite (proj1 (repeat_newlines_shapes _ _)) in Hnd.
      rewrite (proj2 (repeat_newlines_shapes _ _)) in Hnb.
      assert (Hr : no_double_blank r = true /\ no_blank_newline r = true).
      { cbn [no_double_blank no_blank_newline] in Hnd, Hnb.
        apply andb_prop in Hnd, Hnb. tauto. }
      destruct (IH 0%nat (proj1 Hr) (proj2 Hr)) as (H1 & H2 & H3).
      rewrite flush_newlines_repeat.
      rewrite (proj1 (repeat_newlines_shapes _ _)), (proj2 (repeat_newlines_shapes _ _)).
      rewrite no_four_repeat by (lia || exact Hx10).
      split; [|split; [|exact H3]].
      * destruct r as [|y r'].
        -- cbn. rewrite andb_false_r. reflexivity.
        -- destruct (cap_head_cons y r') as [o Eo]. rewrite Eo in *.
           change (negb (is_blank x && is_blank y) && no_double_blank (y :: o) = true).
           rewrite H1, andb_true_r.
           change (negb (is_blank x && is_blank y) && no_double_blank (y :: r') = true) in Hnd.
           apply andb_prop in Hnd. tauto.
      * destruct r as [|y r'].
        -- cbn. rewrite andb_false_r. reflexivity.
        -- destruct (cap_head_cons y r') as [o Eo]. rewrite Eo in *.
           change (negb (is_blank x && (y =? 10)) && no_blank_newline (y :: o) = true).
           rewrite H2, andb_true_r.
           change (negb (is_blank x && (y =? 10)) && no_blank_newline (y :: r') = true) in Hnb.
           apply andb_prop in Hnb. tauto.
Qed.

(** Each step leaves a text already in its output shape unchanged. *)
Lemma collapse_id (s : cstring) :
  (no_double_blank s = true -> collapse_blank_runs [] s = s)
  /\ (forall x, is_blank x = true -> no_double_blank (x :: s) = true ->
      collapse_blank_runs [x] s = x :: s).
Proof.
  induction s as [|c r [IH1 IH2]]; [split; reflexivity|]. split.
  - intros H. cbn [collapse_blank_runs]. destruct (is_blank c) eqn:Hc.
    + exact (IH2 c Hc H).
    + cbn [no_double_blank] in H. apply andb_prop in H as [_ H].
      rewrite (IH1 H). reflexivity.
  - intros x Hx H. cbn [collapse_blank_runs]. cbn [no_double_blank] in H.
    apply andb_prop in H as [H0 H]. rewrite Hx in H0.
    destruct (is_blank c) eqn:Hc; [discriminate|].
    apply andb_prop in H as [_ H]. rewrite (IH1 H). reflexivity.
Qed.

Lemma blank_before_newline_false (l m : cstring) (a : Z) :
  no_blank_newline (l ++ a :: 10 :: m) = true -> is_blank a = false.
Proof.
  rewrite no_blank_newline_app. intros H. apply andb_prop in H as [_ H].
  cbn [no_blank_newline] in H. apply andb_prop in H as [H _].
  rewrite Z.eqb_refl, andb_true_r in H. apply negb_true_iff in H. exact H.
Qed.

Lemma drop_id (s acc : cstring) :
  forallb is_blank acc = true -> no_blank_newline (rev acc ++ s) = true ->
  drop_blanks_before_newline acc s = rev acc ++ s.
Proof.
  revert acc. induction s as [|c r IH]; intros acc Hacc H; cbn [drop_blanks_before_newline].
  - rewrite app_nil_r. reflexivity.
  - destruct (is_blank c) eqn:Hc; [|destruct (Z.eqb_spec c 10) as [->|Hc10]].
    + rewrite IH; [cbn [rev]; rewrite <- app_assoc; reflexivity|
                   cbn [forallb]; rewrite Hc, Hacc; reflexivity|].
      cbn [rev]. rewrite <- app_assoc. exact H.
    + destruct acc as [|a acc'].
      * cbn [rev app] in *. cbn [no_blank_newline] in H. apply andb_prop in H as [_ H].
        rewrite (IH [] eq_refl H). reflexivity.
      * exfalso. cbn [rev] in H. rewrite <- app_assoc in H. cbn [app] in H.
        apply blank_before_newline_false in H.
        cbn [forallb] in Hacc. apply andb_prop in Hacc as [Ha _]. congruence.
    + rewrite no_blank_newline_app in H. apply andb_prop in H as [_ H].
      cbn [no_blank_newline] in H. apply andb_prop in H as [_ H].
      rewrite (IH [] eq_refl H). reflexivity.
Qed.

Lemma cap_id (s : cstring) (k : nat) :
  (k <= 3)%nat -> no_four_newlines (repeat 10 k ++ s) = true ->
  cap_newline_runs k s = repeat 10 k ++ s.
Proof.
  revert k. induction s as [|c r IH]; intros k Hk H; cbn [cap_newline_runs].
  - rewrite flush_newlines_repeat, Nat.min_l, app_nil_r by exact Hk. reflexivity.
  - destruct (Z.eqb_spec c 10) as [->|Hc10].
    + assert (Hk' : (S k <= 3)%nat).
      { destruct k as [|[|[|k]]]; try lia. exfalso.
        assert (k = 0%nat) by lia. subst k. cbn in H. discriminate. }
      rewrite (IH (S k) Hk'); [apply repeat_S_app|]. rewrite repeat_S_app. exact H.
    + rewrite no_four_repeat in H by assumption.
      rewrite (IH 0%nat (Nat.le_0_l 3) H), flush_newlines_repeat, Nat.min_l by exact Hk.
      reflexivity.
Qed.

(** After [normalizeWhitespaceAfterFiltering] no two spaces/tabs are
    adjacent, no space or tab stands before a newline, no four newlines
    follow each other, and normalising again changes nothing. *)
Theorem normalize_whitespace_shape (s : cstring) :
  let n := normalizeWhitespaceAfterFiltering s in
  no_double_blank n = true /\ no_blank_newline n = true /\ no_four_newlines n = true
  /\ normalizeWhitespaceAfterFiltering n = n.
Proof.
  cbv zeta. unfold normalizeWhitespaceAfterFiltering.
  pose proof (collapse_no_double_blank [] s) as H1.
  destruct (drop_shapes [] (collapse_blank_runs [] s) eq_refl H1) as [H2 H3].
  destruct (cap_shapes (drop_blanks_before_newline [] (collapse_blank_runs [] s)) 0
              H2 H3) as (N1 & N2 & N3).
  set (n := cap_newline_runs 0 (drop_blanks_before_newline [] (collapse_blank_runs [] s))) in *.
  split; [exact N1|]. split; [exact N2|]. split; [exact N3|].
  rewrite (proj1 (collapse_id n) N1).
  rewrite (drop_id n [] eq_refl N2).
  exact (cap_id n 0 (Nat.le_0_l 3) N3).
Qed.

End StreamFacts.

(* ------------------------------------------------------------------ *)
(** ** Session title and rolling summary *)
Module ChatTextFacts.
Import Text ChatHistory ChatText.
Local Open Scope Z_scope.

Lemma drop_spaces_suffix (s : cstring) : exists p, s = p ++ drop_spaces s.
Proof.
  induction s as [|c r [p Hp]]; [exists []; reflexivity|]. simpl.
  destruct (is_js_space c); [exists (c :: p); simpl; rewrite <- Hp; reflexivity|].
  exists []. reflexivity.
Qed.

Lemma drop_spaces_head (s r : cstring) (c : Z) :
  drop_spaces s = c :: r -> is_js_space c = false.
Proof.
  induction s as [|x s IH]; simpl; [discriminate|].
  destruct (is_js_space x) eqn:Hx; [exact IH|]. intros [= -> _]. exact Hx.
Qed.

Lemma trim_head (s r : cstring) (c : Z) : trim s = c :: r -> is_js_space c = false.
Proof.
  unfold trim. destruct (drop_spaces_suffix (rev (drop_spaces s))) as [p Hp].
  intros E. apply (f_equal (@rev Z)) in E. rewrite rev_involutive in E.
  rewrite E in Hp. apply (f_equal (@rev Z)) in Hp.
  rewrite rev_involutive, rev_app_distr, rev_involutive in Hp.
  cbn [app] in Hp. exact (drop_spaces_head _ _ _ Hp).
Qed.

Lemma forallb_spaces_collapse (b : bool) (s : cstring) :
  forallb is_js_space s = true -> forallb is_js_space (collapse_spaces_aux b s) = true.
Proof.
  revert b. induction s as [|c r IH]; intros b; [reflexivity|]. cbn [forallb].
  intros [Hc Hr]%andb_prop. cbn [collapse_spaces_aux]. rewrite Hc.
  destruct b; cbn [forallb]; rewrite ?IH by exact Hr; reflexivity.
Qed.

Lemma forallb_spaces_crlf (b : bool) (s : cstring) :
  forallb is_js_space s = true -> forallb is_js_space (replace_crlf_runs b s) = true.
Proof.
  revert b. induction s as [|c r IH]; intros b; [reflexivity|]. cbn [forallb].
  intros [Hc Hr]%andb_prop. cbn [replace_crlf_runs].
  destruct ((c =? 13) || (c =? 10)); [destruct b|]; cbn [forallb];
    rewrite ?Hc, ?IH by exact Hr; reflexivity.
Qed.

Lemma split_on_no_sep (sep : Z) (s : cstring) :
  Forall (fun w => ~ In sep w) (split_on sep s).
Proof.
  induction s as [|c r IH]; cbn [split_on]; [constructor; [intros []|constructor]|].
  destruct (Z.eqb_spec c sep) as [->|Hc].
  - constructor; [intros []|exact IH].
  - destruct (split_on sep r) as [|w ws]; [constructor; [intros [E|[]]; congruence|constructor]|].
    inversion IH as [|? ? Hw Hws]; subst. constructor; [|exact Hws].
    intros [E|H]; [congruence|exact (Hw H)].
Qed.

Lemma count_join (sep : Z) (ws : list cstring) :
  Forall (fun w => ~ In sep w) ws ->
  count_occ Z.eq_dec (join sep ws) sep = (length ws - 1)%nat.
Proof.
  induction ws as [|w ws IH]; [reflexivity|]. intros Hall.
  inversion Hall as [|? ? Hw Hws]; subst.
  destruct ws as [|w' ws'].
  - cbn [join length]. rewrite (proj1 (count_occ_not_In Z.eq_dec w sep) Hw). reflexivity.
  - change (join sep (w :: w' :: ws')) with (w ++ sep :: join sep (w' :: ws')).
    rewrite count_occ_app, (proj1 (count_occ_not_In Z.eq_dec w sep) Hw).
    rewrite count_occ_cons_eq by reflexivity. rewrite (IH Hws). cbn [length]. lia.
Qed.

Lemma count_firstn (n : nat) (l : cstring) (x : Z) :
  (count_occ Z.eq_dec (firstn n l) x <= count_occ Z.eq_dec l x)%nat.
Proof.
  rewrite <- (firstn_skipn n l) at 2. rewrite count_occ_app. lia.
Qed.

(** The title is never empty, is at most 80 code units long and holds
    at most six spaces, i.e. at most seven words. *)
Theorem compact_title_shape (text : cstring) :
  let t := compactTitleFromUserText text in
  t <> [] /\ (length t <= 80)%nat /\ (count_occ Z.eq_dec t 32%Z <= 6)%nat.
Proof.
  cbv zeta. unfold compactTitleFromUserText.
  destruct (trim (replace_crlf_runs false (collapse_spaces text))) as [|c r] eqn:E.
  - split; [discriminate|]. split; vm_compute; lia.
  - set (pieces := split_on 32 (c :: r)).
    assert (Hcount : (count_occ Z.eq_dec (join 32 (firstn 7 pieces)) 32%Z <= 6)%nat).
    { rewrite count_join.
      - rewrite length_firstn. lia.
      - pose proof (split_on_no_sep 32 (c :: r)) as H.
        rewrite <- (firstn_skipn 7 (split_on 32 (c :: r))) in H.
        apply List.Forall_app in H. exact (proj1 H). }
    assert (Hne : join 32 (firstn 7 pieces) <> []).
    { pose proof (trim_head _ _ _ E) as Hc.
      assert (Hc32 : (c =? 32) = false) by (destruct (Z.eqb_spec c 32); [subst c; discriminate|reflexivity]).
      unfold pieces. cbn [split_on]. rewrite Hc32.
      destruct (split_on 32 r) as [|w ws]; cbn [firstn join]; [discriminate|].
      destruct (firstn 6 ws); discriminate. }
    destruct (Nat.ltb_spec 80 (length (join 32 (firstn 7 pieces)))) as [Hlt|Hle].
    + split; [destruct (firstn 77 _); discriminate|]. split.
      * rewrite length_app, length_firstn.
        assert (length (cps "...") = 3%nat) as -> by reflexivity. lia.
      * rewrite count_occ_app. pose proof (count_firstn 77 (join 32 (firstn 7 pieces)) 32).
        assert (count_occ Z.eq_dec (cps "...") 32 = 0%nat) as -> by reflexivity. lia.
    + split; [exact Hne|split; [lia|exact Hcount]].
Qed.

(** A blank message (empty or whitespace only) is titled "Nouveau chat". *)
Theorem blank_title_placeholder (text : cstring) :
  forallb is_js_space text = true ->
  compactTitleFromUserText text = cps "Nouveau chat".
Proof.
  intros H. unfold compactTitleFromUserText, trim, collapse_spaces.
  rewrite (LanguageProofs.drop_spaces_all _
             (forallb_spaces_crlf _ _ (forallb_spaces_collapse _ _ H))).
  reflexivity.
Qed.

Lemma blank_title_placeholder_witness :
  forallb is_js_space [32; 9; 10] = true
  /\ compactTitleFromUserText [32; 9; 10] = cps "Nouveau chat".
Proof.
  assert (H : forallb is_js_space [32; 9; 10] = true) by reflexivity.
  split; [exact H|]. exact (blank_title_placeholder _ H).
Defined.

Lemma clip_length (s : cstring) : (length (clip s) <= 280)%nat.
Proof. unfold clip. rewrite length_firstn. lia. Qed.

Lemma summary_join_tail (p U A : cstring) :
  U <> [] -> A <> [] ->
  exists pre,
    join 10 (List.filter (fun x => match x with [] => false | _ => true end) [p; U; A])
    = pre ++ U ++ 10 :: A.
Proof.
  intros HU HA.
  destruct U as [|cu ru]; [congruence|]. destruct A as [|ca ra]; [congruence|].
  destruct p as [|cp rp].
  - exists []. reflexivity.
  - exists ((cp :: rp) ++ [10]). cbn [List.filter].
    change (join 10 [cp :: rp; cu :: ru; ca :: ra])
      with ((cp :: rp) ++ 10 :: (cu :: ru) ++ 10 :: (ca :: ra)).
    rewrite <- app_assoc. reflexivity.
Qed.

Lemma keep_last_2000 (next pre T : cstring) :
  next = pre ++ T -> (length T <= 2000)%nat ->
  let out := if (2000 <? length next)%nat then skipn (length next - 2000) next else next in
  (length out <= 2000)%nat /\ exists pre', out = pre' ++ T.
Proof.
  intros E HT. cbv zeta.
  destruct (Nat.ltb_spec 2000 (length next)) as [Hlt|Hle].
  - split; [rewrite length_skipn; lia|].
    exists (skipn (length next - 2000) pre). rewrite E, skipn_app.
    rewrite E, length_app in *.
    replace (length pre + length T - 2000 - length pre)%nat with 0%nat by lia.
    reflexivity.
  - split; [exact Hle|]. exists pre. exact E.
Qed.

(** The rolling summary never exceeds 2000 code units, and it always ends
    with the newest exchange: the line [U: ] with the clipped user text, a
    newline, then the line [A: ] with the clipped assistant text. *)
Theorem append_summary_keeps_latest (prev : option cstring) (user assistant : cstring) :
  let s := appendToSummary prev user assistant in
  (length s <= 2000)%nat
  /\ exists pre, s = pre ++ (cps "U: " ++ clip user) ++ 10 :: cps "A: " ++ clip assistant.
Proof.
  cbv zeta. unfold appendToSummary. cbv zeta.
  destruct (summary_join_tail (match prev with Some p => trim p | None => [] end)
              (cps "U: " ++ clip user) (cps "A: " ++ clip assistant))
    as [pre E]; [discriminate|discriminate|].
  apply (keep_last_2000 _ pre); [exact E|].
  rewrite !length_app. cbn [length]. rewrite !length_app.
  pose proof (clip_length user). pose proof (clip_length assistant).
  assert (length (cps "U: ") = 3%nat) as -> by reflexivity.
  assert (length (cps "A: ") = 3%nat) as -> by reflexivity. lia.
Qed.

Lemma summary_loop_bounded (n : nat) (pairs : list StoredMessage) (s : cstring) :
  (length pairs <= n)%nat -> (length s <= 2000)%nat ->
  (length (summary_loop s pairs) <= 2000)%nat.
Proof.
  revert pairs s. induction n as [|n IH]; intros pairs s Hn Hs.
  - destruct pairs; [exact Hs|cbn in Hn; lia].
  - destruct pairs as [|u [|a rest]]; [exact Hs|exact Hs|].
    cbn [summary_loop]. apply IH; [cbn in Hn; lia|].
    destruct (_ && _); [apply append_summary_keeps_latest|exact Hs].
Qed.

(** Whatever the stored history, the summary built from it is at most
    2000 code units long. *)
Theorem build_summary_bounded (pairs : list StoredMessage) :
  (length (buildSummaryFromMessages pairs) <= 2000)%nat.
Proof.
  unfold buildSummaryFromMessages.
  pose proof (summary_loop_bounded (length pairs) pairs [] (le_n _) (Nat.le_0_l _)).
  destruct (trim _); [cbn; lia|exact H].
Qed.

Lemma summary_loop_skips (n : nat) (pairs : list StoredMessage) (s : cstring) :
  (length pairs <= n)%nat ->
  (forall i m, nth_error pairs (2 * i) = Some m -> sm_role m <> "user"%string) ->
  summary_loop s pairs = s.
Proof.
  revert pairs s. induction n as [|n IH]; intros pairs s Hn Hroles.
  - destruct pairs; [reflexivity|cbn in Hn; lia].
  - destruct pairs as [|u [|a rest]]; [reflexivity|reflexivity|].
    cbn [summary_loop].
    assert (Hu : String.eqb (sm_role u) "user" = false).
    { apply String.eqb_neq. exact (Hroles 0%nat u eq_refl). }
    rewrite Hu. cbn [andb]. apply IH; [cbn in Hn; lia|].
    intros i m Hm. apply (Hroles (S i) m).
    replace (2 * S i)%nat with (S (S (2 * i))) by lia. exact Hm.
Qed.

(** The history is read two messages at a time from the start; when no
    message at an even position is a user message, no pair is ever
    accepted and the summary is empty. *)
Theorem misaligned_history_empty_summary (pairs : list StoredMessage) :
  (forall i m, nth_error pairs (2 * i) = Some m -> sm_role m <> "user"%string) ->
  buildSummaryFromMessages pairs = [].
Proof.
  intros H. unfold buildSummaryFromMessages.
  rewrite (summary_loop_skips (length pairs) pairs [] (le_n _) H). reflexivity.
Qed.

Lemma misaligned_history_empty_summary_witness :
  let pairs := [mkStored "assistant" (cps "Bonjour");
                mkStored "user" (cps "Avez-vous des verres ?");
                mkStored "assistant" (cps "Oui")] in
  buildSummaryFromMessages pairs = [].
Proof.
  cbv zeta. apply misaligned_history_empty_summary.
  intros [|[|i]] m Hm.
  - cbn in Hm. injection Hm as <-. discriminate.
  - cbn in Hm. injection Hm as <-. discriminate.
  - rewrite (proj2 (nth_error_None _ _)) in Hm; [discriminate|cbn [length]; lia].
Defined.

End ChatTextFacts.

(* ------------------------------------------------------------------ *)
(** ** Message edit and delete routes *)
Module RoutesFacts.
Import Text MessageRoutes.
Local Open Scope Z_scope.

Definition db_two : Db :=
  mkDb {[ "m1" := mkChatMessage "m1" "A" "user" (cps "hello");
          "m2" := mkChatMessage "m2" "A" "assistant" (cps "bonjour") ]}%string
       {[ "A" := 0; "B" := 0 ]}%string.




(** Whatever the outcome, PATCH and DELETE change no message other than
    [messageId] and no session timestamp other than that of [chatId]. *)
Theorem routes_touch_only_target (now : Z) (chatId messageId : string)
    (content : cstring) (db : Db) (id chatId' : string) :
  id <> messageId -> chatId' <> chatId ->
  messages (snd (PATCH now chatId messageId content db)) !! id = messages db !! id
  /\ sessionUpdatedAt (snd (PATCH now chatId messageId content db)) !! chatId'
     = sessionUpdatedAt db !! chatId'
  /\ messages (snd (DELETE now chatId messageId db)) !! id = messages db !! id
  /\ sessionUpdatedAt (snd (DELETE now chatId messageId db)) !! chatId'
     = sessionUpdatedAt db !! chatId'.
Proof.
  intros Hid Hc. unfold PATCH, DELETE, touch_session.
  destruct (params_ok chatId messageId); cbn [negb];
    [|repeat split; reflexivity].
  destruct (messages db !! messageId) as [m|]; cbn [messages sessionUpdatedAt];
    [|destruct (parse_patch_content content); repeat split; reflexivity].
  destruct (parse_patch_content content) as [c|];
    destruct (negb _) eqn:E1; try destruct (negb (String.eqb (cm_chatId m) chatId));
    repeat match goal with
           | |- context [match sessionUpdatedAt ?d !! ?k with _ => _ end] =>
               destruct (sessionUpdatedAt d !! k)
           end;
    cbn [snd messages sessionUpdatedAt];
    rewrite ?lookup_insert_ne, ?lookup_delete_ne by congruence;
    repeat split; reflexivity.
Qed.

Lemma routes_touch_only_target_witness :
  messages (snd (PATCH 5 "A" "m1" (cps "x") db_two)) !! "m2"%string
    = Some (mkChatMessage "m2" "A" "assistant" (cps "bonjour"))
  /\ sessionUpdatedAt (snd (DELETE 5 "A" "m1" db_two)) !! "B"%string = Some 0.
Proof.
  destruct (routes_touch_only_target 5 "A" "m1" (cps "x") db_two "m2" "B"
              ltac:(discriminate) ltac:(discriminate)) as (E1 & _ & _ & E4).
  split; [rewrite E1|rewrite E4]; reflexivity.
Defined.



Lemma db_wf_insert_message (db : Db) (k : string) (m m' : ChatMessage) :
  db_wf db -> messages db !! k = Some m -> cm_chatId m' = cm_chatId m ->
  db_wf (mkDb (<[k := m']> (messages db)) (sessionUpdatedAt db)).
Proof.
  intros Hwf Hm Hc id x. cbn [messages sessionUpdatedAt].
  rewrite lookup_insert_Some. intros [[<- <-]|[_ Hx]].
  - rewrite Hc. exact (Hwf k m Hm).
  - exact (Hwf id x Hx).
Qed.

Lemma db_wf_delete_message (db : Db) (k : string) :
  db_wf db -> db_wf (mkDb (delete k (messages db)) (sessionUpdatedAt db)).
Proof.
  intros Hwf id x. cbn [messages sessionUpdatedAt].
  rewrite lookup_delete_Some. intros [_ Hx]. exact (Hwf id x Hx).
Qed.

Lemma db_wf_touch (now : Z) (chatId : string) (db db' : Db) :
  db_wf db -> touch_session now chatId db = Some db' -> db_wf db'.
Proof.
  unfold touch_session. intros Hwf Ht.
  destruct (sessionUpdatedAt db !! chatId); [|discriminate].
  injection Ht as <-. intros id x Hx. cbn [messages sessionUpdatedAt] in *.
  apply lookup_insert_is_Some'. right. exact (Hwf id x Hx).
Qed.

Lemma touch_session_defined (now : Z) (chatId : string) (db : Db) :
  is_Some (sessionUpdatedAt db !! chatId) -> touch_session now chatId db <> None.
Proof.
  unfold touch_session. intros [t Ht]. rewrite Ht. discriminate.
Qed.

(** On a store that satisfies the foreign key [db_wf], PATCH and DELETE
    keep it, whatever the outcome; and when either throws, the store is
    the one it was given: no write happens before a throw, since the
    session of a message's own chat always exists. *)
Theorem routes_keep_foreign_key (now : Z) (chatId messageId : string)
    (content : cstring) (db : Db) :
  db_wf db ->
  db_wf (snd (PATCH now chatId messageId content db))
  /\ db_wf (snd (DELETE now chatId messageId db))
  /\ (forall e, fst (PATCH now chatId messageId content db) = Thrown e ->
       snd (PATCH now chatId messageId content db) = db)
  /\ (forall e, fst (DELETE now chatId messageId db) = Thrown e ->
       snd (DELETE now chatId messageId db) = db).
Proof.
  intros Hwf. unfold PATCH, DELETE.
  destruct (params_ok chatId messageId); cbn [negb];
    [|repeat split; auto].
  destruct (messages db !! messageId) as [m|] eqn:Hm;
    [|destruct (parse_patch_content content); repeat split; auto].
  assert (Hs : is_Some (sessionUpdatedAt db !! cm_chatId m)) by exact (Hwf _ _ Hm).
  pose proof (db_wf_insert_message db messageId m) as Hins.
  pose proof (db_wf_delete_message db messageId Hwf) as Hdel.
  cbn [cm_chatId with_content].
  destruct (String.eqb_spec (cm_chatId m) chatId) as [Hown|Hown]; cbn [negb].
  - subst chatId.
    destruct (parse_patch_content content) as [c|];
      [destruct (touch_session now (cm_chatId m)
                   (mkDb (<[messageId := with_content m c]> (messages db))
                         (sessionUpdatedAt db))) as [d1|] eqn:T1;
       [|exfalso; revert T1; apply touch_session_defined; exact Hs]|];
      (destruct (touch_session now (cm_chatId m)
                   (mkDb (delete messageId (messages db)) (sessionUpdatedAt db)))
         as [d2|] eqn:T2;
       [|exfalso; revert T2; apply touch_session_defined; exact Hs]);
      cbn [fst snd]; repeat split; try discriminate; auto.
    + apply (db_wf_touch _ _ _ _ (Hins (with_content m c) Hwf Hm eq_refl) T1).
    + apply (db_wf_touch _ _ _ _ Hdel T2).
    + apply (db_wf_touch _ _ _ _ Hdel T2).
  - destruct (parse_patch_content content) as [c|];
      cbn [fst snd]; repeat split; try discriminate; auto.
Qed.

(** [db_two] satisfies the foreign key; DELETE from the wrong chat
    answers 400 with the message removed, and the result still does. *)
Lemma routes_keep_foreign_key_witness :
  db_wf db_two
  /\ db_wf (snd (DELETE 4 "B" "m1" db_two))
  /\ fst (DELETE 4 "B" "m1" db_two) = ErrorJson 400 "Message/chat mismatch".
Proof.
  assert (H : db_wf db_two)
    by (unfold db_wf; apply (bool_decide_unpack _); vm_compute; reflexivity).
  split; [exact H|split; [exact (proj1 (proj2 (routes_keep_foreign_key 4 "B" "m1" [] db_two H)))|]].
  vm_compute. reflexivity.
Defined.

End RoutesFacts.

(* ------------------------------------------------------------------ *)
(** ** Chat history sent to the model *)
Module HistoryFacts.
Import Text ChatHistory.

Lemma safeRole_not_system (r : string) :
  r <> "system"%string ->
  safeRole r = "user"%string \/ safeRole r = "assistant"%string.
Proof.
  intros Hr. unfold safeRole.
  destruct (String.eqb_spec r "user") as [->|_]; [left; reflexivity|].
  destruct (String.eqb_spec r "assistant") as [->|_]; [right; reflexivity|].
  destruct (String.eqb_spec r "system") as [->|_]; [contradiction|].
  left. reflexivity.
Qed.

Lemma in_skipn_l {A} (n : nat) (l : list A) (x : A) : In x (skipn n l) -> In x l.
Proof.
  intros H. rewrite <- (firstn_skipn n l). apply in_or_app. right. exact H.
Qed.

(** The history replayed to the model has at most 12 entries, and every
    entry has role "user" or "assistant": system rows are dropped and any
    unknown role is sent as "user". *)
Theorem history_bounded_roles (persisted : list StoredMessage) :
  (length (history persisted) <= 12)%nat
  /\ Forall (fun m => om_role m = "user"%string \/ om_role m = "assistant"%string)
            (history persisted).
Proof.
  unfold history, slice_neg. split.
  - rewrite length_skipn. lia.
  - apply List.Forall_forall. intros o Ho.
    apply in_skipn_l in Ho. apply in_map_iff in Ho as (m & <- & Hm).
    apply List.filter_In in Hm as [_ Hm]. cbn [om_role].
    apply safeRole_not_system.
    destruct (String.eqb_spec (sm_role m) "system"); [discriminate|assumption].
Qed.

End HistoryFacts.
